(** * Wallet transaction fetcher: a shallow embedding and its properties

    The program is a small Express service.  [getTransactions] validates a
    wallet address, lists the signatures of the wallet through the Solana
    RPC client, fetches the details of every signature with a bounded
    exponential backoff ([fetchTransactionWithBackoff]) and maps each fetched
    transaction into a simplified record.

    Two revisions of the service are embedded.  They share the fetcher and the
    per-signature loop and differ in the address check and in the record they
    build; the loop is therefore written once, over the record builder.

    The RPC node, the [PublicKey] constructor and [Date.prototype.toISOString]
    are collaborators of the program, not part of it: they are the fields of a
    [Platform], and every theorem is stated for an arbitrary platform.  The
    effects of the program (RPC requests, timers, console lines) are recorded
    as a trace of events next to the result. *)

From Stdlib Require Import ZArith List String Ascii Bool Lia DecimalString.
From Equations Require Import Equations.
Import ListNotations.

Open Scope Z_scope.
Open Scope list_scope.

(** ** JavaScript values used by the program *)

(** A thrown [Error] object: the program only reads its [message]. *)
Record JsError : Type := mkError { name : string; message : string }.

(** How a piece of code ends: with a value, or by throwing. *)
Inductive Completion (A : Type) : Type :=
| Normal (value : A)
| Throw (error : JsError).
Arguments Normal {A} value.
Arguments Throw {A} error.

(** [String.prototype.includes]: [sub] occurs somewhere in [s]. *)
Fixpoint includes (s sub : string) : bool :=
  if String.prefix sub s then true
  else match s with
       | EmptyString => false
       | String _ rest => includes rest sub
       end.

(** Template-literal rendering of an integral number. *)
Definition numberToString (n : Z) : string :=
  NilZero.string_of_int (Z.to_int n).

(** [Math.min] on integral numbers. *)
Definition Math_min (a b : Z) : Z := Z.min a b.

(** [x || d] on numbers: [0] is falsy. *)
Definition number_or (x : option Z) (d : Z) : Z :=
  match x with
  | Some v => if v =? 0 then d else v
  | None => d
  end.

(** Truthiness of a string that may be undefined: the empty string is falsy. *)
Definition truthy_string (x : option string) : option string :=
  match x with
  | Some EmptyString => None
  | Some s => Some s
  | None => None
  end.

(** ** Data returned by the RPC client *)

Record SignatureInfo : Type := mkSignatureInfo
  { signature : string; sig_slot : Z }.

Record TokenAmount : Type := mkTokenAmount { decimals : option Z }.

Record TokenBalance : Type := mkTokenBalance
  { mint : option string; uiTokenAmount : option TokenAmount }.

Record ParsedInfo : Type := mkParsedInfo { type : option string }.

Record Instruction : Type := mkInstruction { parsed : option ParsedInfo }.

Record Message : Type := mkMessage { instructions : list Instruction }.

Record Transaction : Type := mkTransaction
  { signatures : list string; message_ : Message }.

Record Meta : Type := mkMeta
  { transactionHash : option string;
    fee : option Z;
    computeUnitsConsumed : option Z;
    preTokenBalances : option (list TokenBalance);
    postTokenBalances : option (list TokenBalance) }.

(** The parsed transaction with its meta, as [getParsedTransaction] yields it. *)
Record RawTransaction : Type := mkRawTransaction
  { slot : Z;
    blockTime : option Z;
    meta : option Meta;
    transaction : Transaction }.

(** ** Records built by the program *)

(** [meta.preTokenBalances[0]?.mint || {}]: a mint address or an empty
    object. *)
Inductive MintOrEmpty : Type :=
| MintAddress (address : string)
| EmptyObject.

Record Token : Type := mkToken
  { token_uuid : MintOrEmpty;
    token_network : string;
    contract_address : option string;
    token_name : string;
    symbol : string;
    token_decimals : Z;
    display_decimals : Z }.

(** The record of the revision that normalizes (port 3002). *)
Record SimplifiedTransaction : Type := mkSimplifiedTransaction
  { uuid : option string;
    network : string;
    st_fee : Z;
    compute_units_consumed : Z;
    timestamp : option string;
    st_type : string;
    wallet_address : string;
    transaction_hash : string;
    token : Token }.

(** The record of the revision that only trims (port 3001). *)
Record TrimmedTransaction : Type := mkTrimmedTransaction
  { tt_signature : option string;
    tt_slot : Z;
    tt_meta : option Meta }.

(** ** The collaborators *)

Record Platform : Type := mkPlatform
  { World : Type;
    PublicKey : Type;
    (** [new PublicKey(address)]: throws on a malformed address. *)
    PublicKey_new : string -> Completion PublicKey;
    (** [connection.getSignaturesForAddress(publicKey)]. *)
    getSignaturesForAddress :
      PublicKey -> World -> Completion (list SignatureInfo) * World;
    (** [connection.getParsedTransaction(signature,
        { maxSupportedTransactionVersion })]; the value may be [null]. *)
    getParsedTransaction :
      string -> Z -> World -> Completion (option RawTransaction) * World;
    (** [new Date(ms).toISOString()]: throws a [RangeError] on an invalid
        time value. *)
    Date_toISOString : Z -> Completion string }.

(** ** Effects *)

Inductive Event (PK : Type) : Type :=
| Rpc_getSignaturesForAddress (publicKey : PK)
| Rpc_getParsedTransaction (sig : string) (maxSupportedTransactionVersion : Z)
| Sleep (ms : Z)
| Console_log (text : string)
| Console_error (text : string) (error : JsError).
Arguments Rpc_getSignaturesForAddress {PK} publicKey.
Arguments Rpc_getParsedTransaction {PK} sig maxSupportedTransactionVersion.
Arguments Sleep {PK} ms.
Arguments Console_log {PK} text.
Arguments Console_error {PK} text error.

Definition is_fetch {PK} (e : Event PK) : bool :=
  match e with Rpc_getParsedTransaction _ _ => true | _ => false end.

Definition is_listing {PK} (e : Event PK) : bool :=
  match e with Rpc_getSignaturesForAddress _ => true | _ => false end.

Definition is_network {PK} (e : Event PK) : bool :=
  is_fetch e || is_listing e.

(** The delays of the timers of a trace, in order. *)
Fixpoint sleeps {PK} (tr : list (Event PK)) : list Z :=
  match tr with
  | [] => []
  | Sleep ms :: rest => ms :: sleeps rest
  | _ :: rest => sleeps rest
  end.

(** The signatures whose details were requested, in order. *)
Fixpoint fetches {PK} (tr : list (Event PK)) : list string :=
  match tr with
  | [] => []
  | Rpc_getParsedTransaction s _ :: rest => s :: fetches rest
  | _ :: rest => fetches rest
  end.

Module IOMonad.

(** A computation reads and updates the world of the platform, ends with a
    completion and leaves a trace. *)
Definition IO (W PK A : Type) : Type :=
  W -> Completion A * W * list (Event PK).

Definition ret {W PK A} (a : A) : IO W PK A :=
  fun w => (Normal a, w, []).

Definition throw {W PK A} (e : JsError) : IO W PK A :=
  fun w => (Throw e, w, []).

Definition bind {W PK A B} (m : IO W PK A) (k : A -> IO W PK B)
  : IO W PK B :=
  fun w =>
    match m w with
    | (Normal a, w1, t1) =>
        match k a w1 with
        | (r, w2, t2) => (r, w2, t1 ++ t2)
        end
    | (Throw e, w1, t1) => (Throw e, w1, t1)
    end.

(** [try { m } catch (error) { h error }]. *)
Definition try_catch {W PK A} (m : IO W PK A) (h : JsError -> IO W PK A)
  : IO W PK A :=
  fun w =>
    match m w with
    | (Normal a, w1, t1) => (Normal a, w1, t1)
    | (Throw e, w1, t1) =>
        match h e w1 with
        | (r, w2, t2) => (r, w2, t1 ++ t2)
        end
    end.

Definition emit {W PK} (e : Event PK) : IO W PK unit :=
  fun w => (Normal tt, w, [e]).

(** A synchronous call that may throw. *)
Definition lift {W PK A} (c : Completion A) : IO W PK A :=
  fun w => (c, w, []).

(** An awaited request to the platform. *)
Definition request {W PK A} (e : Event PK) (f : W -> Completion A * W)
  : IO W PK A :=
  fun w => let (r, w1) := f w in (r, w1, [e]).

Declare Scope io_scope.
Delimit Scope io_scope with io.
Notation "x <- m ;; k" := (bind m (fun x => k))
  (at level 100, m at next level, right associativity) : io_scope.
Notation "m ;;; k" := (bind m (fun _ => k))
  (at level 100, right associativity) : io_scope.

End IOMonad.
Import IOMonad.

(** The literal the fetcher looks for in the message of a failed request. *)
Definition VERSION_NOT_SUPPORTED : string :=
  "failed to get transaction: Transaction version (0) is not supported".

(** [Math.min(500 * 2 ** (attempt - 1), 16000)].  The fetcher is entered with
    [attempt = 1] and only ever adds one, so the exponent is a natural
    number and the arithmetic is exact; attempts below one do not occur. *)
Definition backoffDelay (attempt : Z) : Z :=
  Math_min (500 * 2 ^ (attempt - 1)) 16000.

(** What is left of the cap of ten attempts: the measure of the recursion. *)
Definition attemptsLeft (attempt : Z) : nat := Z.to_nat (11 - attempt).
Arguments attemptsLeft : simpl never.

Section Program.

Context (P : Platform).

Local Abbreviation PK := (PublicKey P).
Local Abbreviation Act A := (IO (World P) (PublicKey P) A).

Definition console_log (text : string) : Act unit :=
  emit (Console_log text).

Definition console_error (text : string) (e : JsError) : Act unit :=
  emit (Console_error text e).

(** [await new Promise((resolve) => setTimeout(resolve, delay))]. *)
Definition sleep (ms : Z) : Act unit := emit (Sleep ms).

Definition rpc_getParsedTransaction (sig : string) (version : Z)
  : Act (option RawTransaction) :=
  request (Rpc_getParsedTransaction sig version)
          (getParsedTransaction P sig version).

Definition rpc_getSignaturesForAddress (pk : PK)
  : Act (list SignatureInfo) :=
  request (Rpc_getSignaturesForAddress pk) (getSignaturesForAddress P pk).

(** [fetchTransactionWithBackoff(signature, attempt = 1)]: the same text in
    both revisions. *)
Equations? fetchTransactionWithBackoff (sig : string) (attempt : Z)
  : Act (option RawTransaction) by wf (attemptsLeft attempt) lt :=
  fetchTransactionWithBackoff sig attempt with Z_gt_le_dec attempt 10 := {
    | left Hgt =>
        (console_log ("Max retry attempts reached for signature: " ++ sig)
         ;;; ret None)%io
    | right Hle =>
        let delay := backoffDelay attempt in
        try_catch
          (rpc_getParsedTransaction sig 0)
          (fun error =>
             if includes (message error) VERSION_NOT_SUPPORTED then
               (console_log
                  ("Transaction version not supported. Retrying after "
                     ++ numberToString delay ++ "ms delay...")
                ;;; sleep delay
                ;;; fetchTransactionWithBackoff sig (attempt + 1))%io
             else if includes (message error) "429" then
               (console_log
                  ("Server responded with 429 Too Many Requests. Retrying after "
                     ++ numberToString delay ++ "ms delay...")
                ;;; sleep delay
                ;;; fetchTransactionWithBackoff sig (attempt + 1))%io
             else throw error) }.
Proof. all: unfold attemptsLeft; lia. Qed.

(** *** The record builders *)

(** Reading a property of [null] or [undefined] throws a [TypeError]; the
    text of its message is the engine's and no code reads it. *)
Definition typeError (reading : string) : JsError :=
  mkError "TypeError" ("Cannot read properties of undefined (reading '"
                         ++ reading ++ "')").

(** [{}], read as a token balance: every property is undefined. *)
Definition emptyTokenBalance : TokenBalance :=
  mkTokenBalance None None.

(** [balances[0] || {}]. *)
Definition first_or_empty (balances : list TokenBalance) : TokenBalance :=
  match hd_error balances with
  | Some b => b
  | None => emptyTokenBalance
  end.

(** Lines 109-111: [transaction.blockTime
      ? new Date(transaction.blockTime * 1000).toISOString() : null]. *)
Definition timestampOf (tx : RawTransaction) : Completion (option string) :=
  match blockTime tx with
  | Some t =>
      if t =? 0 then Normal None
      else match Date_toISOString P (t * 1000) with
           | Normal s => Normal (Some s)
           | Throw e => Throw e
           end
  | None => Normal None
  end.

(** Lines 112-114: [instructions[0]?.parsed?.type || "unknown"]. *)
Definition typeOf (tx : RawTransaction) : string :=
  match hd_error (instructions (message_ (transaction tx))) with
  | Some i =>
      match parsed i with
      | Some p =>
          match truthy_string (type p) with
          | Some t => t
          | None => "unknown"
          end
      | None => "unknown"
      end
  | None => "unknown"
  end.

(** Lines 99-126 of the normalizing revision: the body of [if (transaction)]
    up to the record. *)
Definition normalize (walletAddress : string) (tx : RawTransaction)
  (signatureInfo : SignatureInfo) : Completion SimplifiedTransaction :=
  match meta tx with
  | None => Throw (typeError "preTokenBalances")
  | Some m =>
      match preTokenBalances m with
      | None => Throw (typeError "0")
      | Some pre =>
          let preTokenBalances := first_or_empty pre in
          match postTokenBalances m with
          | None => Throw (typeError "0")
          | Some post =>
              let postTokenBalances := first_or_empty post in
              let token :=
                match hd_error pre with
                | Some b =>
                    match truthy_string (mint b) with
                    | Some a => MintAddress a
                    | None => EmptyObject
                    end
                | None => EmptyObject
                end in
              match timestampOf tx with
              | Throw e => Throw e
              | Normal ts =>
                  Normal
                    {| uuid := transactionHash m;
                       network := "Solana";
                       st_fee := number_or (fee m) 0;
                       compute_units_consumed :=
                         number_or (computeUnitsConsumed m) 0;
                       timestamp := ts;
                       st_type := typeOf tx;
                       wallet_address := walletAddress;
                       transaction_hash := signature signatureInfo;
                       token :=
                         {| token_uuid := token;
                            token_network := "Solana";
                            contract_address :=
                              truthy_string (mint preTokenBalances);
                            token_name := "solana";
                            symbol := "sol";
                            token_decimals :=
                              number_or
                                (match uiTokenAmount preTokenBalances with
                                 | Some a => decimals a
                                 | None => None
                                 end) 0;
                            display_decimals := 2 |} |}
              end
          end
      end
  end.

(** Lines 85-89 of the trimming revision. *)
Definition trim (tx : RawTransaction) (signatureInfo : SignatureInfo)
  : Completion TrimmedTransaction :=
  Normal {| tt_signature := hd_error (signatures (transaction tx));
            tt_slot := slot tx;
            tt_meta := meta tx |}.

(** *** The per-signature loop *)

Inductive LoopControl : Type := Continue | Break.

Section Loop.

Context {R : Type}.
Variable build : RawTransaction -> SignatureInfo -> Completion R.

(** The [try] block of one iteration: fetch, build, push, test the cap. *)
Definition tryBody (signatureInfo : SignatureInfo) (transactions : list R)
  : Act (list R * LoopControl) :=
  (transaction <- fetchTransactionWithBackoff (signature signatureInfo) 1 ;;
   match transaction with
   | Some tx =>
       simplifiedTransaction <- lift (build tx signatureInfo) ;;
       let transactions := transactions ++ [simplifiedTransaction] in
       if (100 <=? List.length transactions)%nat
       then ret (transactions, Break)
       else ret (transactions, Continue)
   | None => ret (transactions, Continue)
   end)%io.

(** One iteration: the [try] block and its [catch]. *)
Definition iteration (signatureInfo : SignatureInfo) (transactions : list R)
  : Act (list R * LoopControl) :=
  try_catch
    (tryBody signatureInfo transactions)
    (fun error =>
       (console_error
          ("Failed to fetch transaction " ++ signature signatureInfo ++ ":")
          error
        ;;; ret (transactions, Continue))%io).

(** [for (let signatureInfo of signatures) { ... }], with the array
    [transactions] threaded through. *)
Fixpoint forSignatures (signatures : list SignatureInfo)
  (transactions : list R) : Act (list R) :=
  match signatures with
  | [] => ret transactions
  | signatureInfo :: rest =>
      (r <- iteration signatureInfo transactions ;;
       match r with
       | (transactions, Break) => ret transactions
       | (transactions, Continue) => forSignatures rest transactions
       end)%io
  end.

End Loop.

(** *** The two revisions of [getTransactions] *)

(** Lines 47-53 (33-39 in the trimming revision): the one listing call. *)
Definition listSignatures (publicKey : PK) : Act (list SignatureInfo) :=
  try_catch
    (rpc_getSignaturesForAddress publicKey)
    (fun error =>
       (console_error "Failed to fetch signatures:" error
        ;;; throw (mkError "Error" "Failed to fetch signatures"))%io).

Definition isValidSolanaPublicKey (address : string) : bool :=
  match PublicKey_new P address with
  | Normal _ => true
  | Throw _ => false
  end.

(** The normalizing revision (port 3002). *)
Definition getTransactions (walletAddress : string)
  : Act (list SimplifiedTransaction) :=
  if negb (isValidSolanaPublicKey walletAddress)
  then throw (mkError "Error" "Invalid wallet address")
  else
    (publicKey <- lift (PublicKey_new P walletAddress) ;;
     signatures <- listSignatures publicKey ;;
     forSignatures (normalize walletAddress) signatures [])%io.

(** The trimming revision (port 3001): no check before the constructor. *)
Definition getTransactions_trimming (walletAddress : string)
  : Act (list TrimmedTransaction) :=
  (publicKey <- lift (PublicKey_new P walletAddress) ;;
   signatures <- listSignatures publicKey ;;
   forSignatures trim signatures [])%io.

End Program.

Arguments forSignatures P {R} build signatures transactions.
Arguments iteration P {R} build signatureInfo transactions.
Arguments tryBody P {R} build signatureInfo transactions.

(** ** A scripted platform

    A concrete platform on which the program is run in the examples: the
    world counts the requests made so far, the address check and the answers
    of the node are given by the script, and the date is rendered as
    ECMAScript does. *)

Module Scripted.

Fixpoint zeros (n : nat) : string :=
  match n with
  | O => EmptyString
  | S k => String "0" (zeros k)
  end.

(** The decimal digits of a natural number, left-padded with zeros. *)
Definition pad (width : nat) (n : Z) : string :=
  let digits := numberToString n in
  (zeros (width - String.length digits) ++ digits)%string.

(** Year, month and day of a day number counted from 1970-01-01, in the
    proleptic Gregorian calendar. *)
Definition civil (days : Z) : Z * Z * Z :=
  let z := days + 719468 in
  let era := z / 146097 in
  let doe := z - era * 146097 in
  let yoe := (doe - doe / 1460 + doe / 36524 - doe / 146096) / 365 in
  let doy := doe - (365 * yoe + yoe / 4 - yoe / 100) in
  let mp := (5 * doy + 2) / 153 in
  let d := doy - (153 * mp + 2) / 5 + 1 in
  let m := if mp <? 10 then mp + 3 else mp - 9 in
  let y := yoe + era * 400 + (if m <=? 2 then 1 else 0) in
  (y, m, d).

Definition year (y : Z) : string :=
  if (0 <=? y) && (y <=? 9999) then pad 4 y
  else ((if (y <? 0)%Z then "-" else "+") ++ pad 6 (Z.abs y))%string.

(** [new Date(ms).toISOString()]. *)
Definition toISOString (ms : Z) : Completion string :=
  if Z.abs ms >? 8640000000000000
  then Throw (mkError "RangeError" "Invalid time value")
  else
    let '(y, m, d) := civil (ms / 86400000) in
    let t := ms mod 86400000 in
    Normal (year y ++ "-" ++ pad 2 m ++ "-" ++ pad 2 d ++ "T"
              ++ pad 2 (t / 3600000) ++ ":"
              ++ pad 2 (t / 60000 mod 60) ++ ":"
              ++ pad 2 (t / 1000 mod 60) ++ "."
              ++ pad 3 (t mod 1000) ++ "Z")%string.

Definition platform
  (valid : string -> bool)
  (listing : Completion (list SignatureInfo))
  (detail : string -> nat -> Completion (option RawTransaction))
  : Platform :=
  {| World := nat;
     PublicKey := string;
     PublicKey_new address :=
       if valid address then Normal address
       else Throw (mkError "Error" "Invalid public key input");
     getSignaturesForAddress _ w := (listing, S w);
     getParsedTransaction sig _ w := (detail sig w, S w);
     Date_toISOString := toISOString |}.

End Scripted.

(** ** Vocabulary of the statements *)

(** The two conditions under which the fetcher tries again. *)
Definition mentions_version (e : JsError) : bool :=
  includes (message e) VERSION_NOT_SUPPORTED.

Definition mentions_429 (e : JsError) : bool :=
  includes (message e) "429".

Definition transient (e : JsError) : bool :=
  mentions_version e || mentions_429 e.

(** The console line that announces a retry: the version test comes first. *)
Definition retryLine (e : JsError) (delay : Z) : string :=
  if mentions_version e
  then "Transaction version not supported. Retrying after "
         ++ numberToString delay ++ "ms delay..."
  else "Server responded with 429 Too Many Requests. Retrying after "
         ++ numberToString delay ++ "ms delay...".

Definition exhaustedLine (sig : string) : string :=
  "Max retry attempts reached for signature: " ++ sig.

(** [tr], then what [x] did. *)
Definition after {A W PK} (tr : list (Event PK))
  (x : Completion A * W * list (Event PK))
  : Completion A * W * list (Event PK) :=
  let '(r, w, t) := x in (r, w, tr ++ t).

Definition result_of {A W PK} (x : Completion A * W * list (Event PK))
  : Completion A := fst (fst x).

Definition world_of {A W PK} (x : Completion A * W * list (Event PK))
  : W := snd (fst x).

Definition trace_of {A W PK} (x : Completion A * W * list (Event PK))
  : list (Event PK) := snd x.

(** The events of one failed attempt that is followed by a retry. *)
Definition retryEvents {PK} (sig : string) (line : string) (delay : Z)
  : list (Event PK) :=
  [Rpc_getParsedTransaction sig 0; Console_log line; Sleep delay].

(** The attempt numbers [from], [from + 1], ..., [count] of them. *)
Fixpoint attemptsFrom (from : Z) (count : nat) : list Z :=
  match count with
  | O => []
  | S k => from :: attemptsFrom (from + 1) k
  end.

(** The events of the attempts numbered [attempts], all of them failing with
    the version error. *)
Definition unsupportedEvents {PK} (sig : string) (attempts : list Z)
  : list (Event PK) :=
  flat_map
    (fun n =>
       retryEvents sig
         ("Transaction version not supported. Retrying after "
            ++ numberToString (backoffDelay n) ++ "ms delay...")
         (backoffDelay n))
    attempts.

(** The console line of the [catch] of the loop. *)
Definition failedLine (signatureInfo : SignatureInfo) : string :=
  "Failed to fetch transaction " ++ signature signatureInfo ++ ":".

(** *** The listing order, as the specification words it

    Each listed signature either contributes one record or is skipped; the
    output is the records of the signatures that contribute, in listing
    order, cut at one hundred. *)

(** What one signature contributes when the node is in state [w], and the
    state in which it leaves the node. *)
Definition contribution (P : Platform) {R : Type}
  (build : RawTransaction -> SignatureInfo -> Completion R)
  (signatureInfo : SignatureInfo) (w : World P) : option R * World P :=
  match fetchTransactionWithBackoff P (signature signatureInfo) 1 w with
  | (Normal (Some tx), w1, _) =>
      match build tx signatureInfo with
      | Normal record => (Some record, w1)
      | Throw _ => (None, w1)
      end
  | (_, w1, _) => (None, w1)
  end.

(** The records of all the signatures, with no cap. *)
Fixpoint contributions (P : Platform) {R : Type}
  (build : RawTransaction -> SignatureInfo -> Completion R)
  (signatures : list SignatureInfo) (w : World P) : list R :=
  match signatures with
  | [] => []
  | signatureInfo :: rest =>
      let (c, w1) := contribution P build signatureInfo w in
      match c with
      | Some record => record :: contributions P build rest w1
      | None => contributions P build rest w1
      end
  end.

Definition specified_output (P : Platform) {R : Type}
  (build : RawTransaction -> SignatureInfo -> Completion R)
  (signatures : list SignatureInfo) (w : World P) : list R :=
  firstn 100 (contributions P build signatures w).

(** [l1] is [l2] with some elements left out: same order, nothing new. *)
Inductive Subseq {A : Type} : list A -> list A -> Prop :=
| Subseq_nil : Subseq [] []
| Subseq_skip (x : A) (l1 l2 : list A) : Subseq l1 l2 -> Subseq l1 (x :: l2)
| Subseq_take (x : A) (l1 l2 : list A) :
    Subseq l1 l2 -> Subseq (x :: l1) (x :: l2).

(** Starting with the node in state [w], the next [n] detail requests of
    [sig] all fail with the version error. *)
Fixpoint unsupported_for (P : Platform) (sig : string) (n : nat)
  (w : World P) : Prop :=
  match n with
  | O => True
  | S k =>
      exists e w1,
        getParsedTransaction P sig 0 w = (Throw e, w1)
        /\ mentions_version e = true
        /\ unsupported_for P sig k w1
  end.

(** ** Inputs of the examples *)

Module Examples.

Definition versionError : JsError :=
  mkError "SolanaJSONRPCError"
    "failed to get transaction: Transaction version (0) is not supported by the requesting client".

Definition rateLimitError : JsError :=
  mkError "Error" "429 Too Many Requests: rate limit reached".

Definition networkError : JsError :=
  mkError "TypeError" "fetch failed".

Definition transfer : Instruction :=
  mkInstruction (Some (mkParsedInfo (Some "transfer"%string))).

(** A transaction of block time 1700000000 with one token balance. *)
Definition sampleTransaction : RawTransaction :=
  {| slot := 230000000;
     blockTime := Some 1700000000;
     meta :=
       Some {| transactionHash := None;
               fee := Some 5000;
               computeUnitsConsumed := Some 150;
               preTokenBalances :=
                 Some [mkTokenBalance
                         (Some "EPjFWdd5AufqSSqeM2qN1xzybapC8G4wEGGkZwyTDt1v"%string)
                         (Some (mkTokenAmount (Some 6)))];
               postTokenBalances := Some [] |};
     transaction := mkTransaction ["5VERv8NMvzbJMEkV8xnrLkEaWRtSz9CosKDYjCJjBRnb"%string]
                      (mkMessage [transfer]) |}.

(** The same transaction stamped with block time zero. *)
Definition epochTransaction : RawTransaction :=
  {| slot := slot sampleTransaction;
     blockTime := Some 0;
     meta := meta sampleTransaction;
     transaction := transaction sampleTransaction |}.

(** The same transaction without its meta. *)
Definition bareTransaction : RawTransaction :=
  {| slot := slot sampleTransaction;
     blockTime := blockTime sampleTransaction;
     meta := None;
     transaction := transaction sampleTransaction |}.

Definition wallet : string := "vines1vzrYbzLMRdu58ou5XTby4qAqVRLmqo36NKPTg".

Definition sigOf (name : string) : SignatureInfo := mkSignatureInfo name 1.

(** The node rejects every detail request with the version error. *)
Definition stubborn : Platform :=
  Scripted.platform (fun _ => true) (Normal [sigOf "s1"])
    (fun _ _ => Throw versionError).

(** The node answers 429 to the first two requests and then serves. *)
Definition throttled : Platform :=
  Scripted.platform (fun _ => true) (Normal [sigOf "s1"])
    (fun _ n => if (n <? 2)%nat then Throw rateLimitError
                else Normal (Some sampleTransaction)).

(** The answer of the node depends on the signature alone. *)
Definition detailBySignature (sig : string) : Completion (option RawTransaction) :=
  if String.eqb sig "missing" then Normal None
  else if String.eqb sig "broken" then Throw networkError
  else if String.eqb sig "stuck" then Throw versionError
  else if String.eqb sig "bare" then Normal (Some bareTransaction)
  else if String.eqb sig "epoch" then Normal (Some epochTransaction)
  else Normal (Some sampleTransaction).

Definition mixedSignatures : list SignatureInfo :=
  map sigOf ["a"; "missing"; "b"; "broken"; "bare"; "stuck"; "c"]%string.

Definition mixed : Platform :=
  Scripted.platform (fun a => String.eqb a wallet) (Normal mixedSignatures)
    (fun sig _ => detailBySignature sig).

(** A wallet with [n] transactions, all of them served at once. *)
Definition numbered (n : nat) : list SignatureInfo :=
  map (fun i => sigOf (numberToString (Z.of_nat i))) (seq 0 n).

Definition busy (n : nat) : Platform :=
  Scripted.platform (fun a => String.eqb a wallet) (Normal (numbered n))
    (fun sig _ => Normal (Some sampleTransaction)).


End Examples.

(** ** The rest of the service

    What the two files hold besides [getTransactions]: the check of the
    endpoint at start-up and the handler of the one route.  Their text is
    the same in both revisions. *)

(** [String.prototype.startsWith]. *)
Definition startsWith (s p : string) : bool := String.prefix p s.

Definition ENDPOINT_ERROR : JsError :=
  mkError "TypeError" "Endpoint URL must start with `http:` or `https:`.".

(** Lines 13-20: the value of [process.env.END_POINT] is a string or
    undefined; the empty string is falsy. *)
Definition checkEndpoint (END_POINT : option string) : Completion string :=
  match END_POINT with
  | None => Throw ENDPOINT_ERROR
  | Some quikNodeEndpoint =>
      if match quikNodeEndpoint with EmptyString => true | _ => false end
         || (negb (startsWith quikNodeEndpoint "http:")
             && negb (startsWith quikNodeEndpoint "https:"))
      then Throw ENDPOINT_ERROR
      else Normal quikNodeEndpoint
  end.

(** The file system, as far as the handler uses it: [fs.writeFile(path,
    data)] may fail. *)
Record FileSystem : Type := mkFileSystem
  { Files : Type;
    fs_writeFile : string -> string -> Files -> Completion unit * Files }.

(** What the handler sends back. *)
Inductive Response : Type :=
| Res_json (text filePath : string)
| Res_status_send (status : Z) (body : string).

(** What the handler does: the events of [getTransactions], the write, the
    console line of its [catch] and the response. *)
Inductive HandlerEvent (PK : Type) : Type :=
| Node (e : Event PK)
| Fs_writeFile (path data : string)
| Console_error_of (error : JsError)
| Respond (r : Response).
Arguments Node {PK} e.
Arguments Fs_writeFile {PK} path data.
Arguments Console_error_of {PK} error.
Arguments Respond {PK} r.

(** [`./transactions_${walletAddress}.json`]. *)
Definition filePathOf (walletAddress : string) : string :=
  "./transactions_" ++ walletAddress ++ ".json".

Definition SAVED : string := "Transaction data has been saved to JSON file".

Definition FAILED : Response :=
  Res_status_send 500 "Error fetching transactions".

Section Handler.

Context (P : Platform) (F : FileSystem) {R : Type}.

(** The [getTransactions] of the revision. *)
Variable getTransactionsOf :
  string -> IO (World P) (PublicKey P) (list R).

(** [JSON.stringify(transactions, null, 2)]. *)
Variable JSON_stringify : list R -> string.

(** The handler of [GET /transactions/:walletAddress], lines 145-162 (107-124
    in the trimming revision), run on the state of the node and of the
    files.  The serializer and the two ways of responding are taken not to
    throw: the array holds plain data and the response is sent once. *)
Definition handler (walletAddress : string) (w : World P) (fs : Files F)
  : World P * Files F * list (HandlerEvent (PublicKey P)) :=
  match getTransactionsOf walletAddress w with
  | (Normal transactions, w1, tr) =>
      let filePath := filePathOf walletAddress in
      let data := JSON_stringify transactions in
      match fs_writeFile F filePath data fs with
      | (Normal _, fs1) =>
          (w1, fs1,
           map Node tr
             ++ [Fs_writeFile filePath data; Respond (Res_json SAVED filePath)])
      | (Throw error, fs1) =>
          (w1, fs1,
           map Node tr
             ++ [Fs_writeFile filePath data; Console_error_of error;
                 Respond FAILED])
      end
  | (Throw error, w1, tr) =>
      (w1, fs, map Node tr ++ [Console_error_of error; Respond FAILED])
  end.

End Handler.

(** The route of each revision. *)
Definition transactionsRoute (P : Platform) (F : FileSystem)
  (JSON_stringify : list SimplifiedTransaction -> string) :=
  handler P F (getTransactions P) JSON_stringify.

Definition transactionsRoute_trimming (P : Platform) (F : FileSystem)
  (JSON_stringify : list TrimmedTransaction -> string) :=
  handler P F (getTransactions_trimming P) JSON_stringify.

(** *** Reading a handler trace *)

Fixpoint responses {PK} (tr : list (HandlerEvent PK)) : list Response :=
  match tr with
  | [] => []
  | Respond r :: rest => r :: responses rest
  | _ :: rest => responses rest
  end.

Fixpoint writes {PK} (tr : list (HandlerEvent PK)) : list (string * string) :=
  match tr with
  | [] => []
  | Fs_writeFile path data :: rest => (path, data) :: writes rest
  | _ :: rest => writes rest
  end.

Fixpoint nodeEvents {PK} (tr : list (HandlerEvent PK)) : list (Event PK) :=
  match tr with
  | [] => []
  | Node e :: rest => e :: nodeEvents rest
  | _ :: rest => nodeEvents rest
  end.

(** *** Reading a fetcher trace *)

(** The events of the failed attempts numbered [from], [from + 1], ..., one
    per error, each followed by a retry. *)
Fixpoint retryBlocks {PK} (sig : string) (from : Z) (errors : list JsError)
  : list (Event PK) :=
  match errors with
  | [] => []
  | e :: rest =>
      retryEvents sig (retryLine e (backoffDelay from)) (backoffDelay from)
        ++ retryBlocks sig (from + 1) rest
  end.

(** The delays of the ten attempts. *)
Definition schedule : list Z :=
  [500; 1000; 2000; 4000; 8000; 16000; 16000; 16000; 16000; 16000].

Definition total (delays : list Z) : Z := fold_right Z.add 0 delays.

(** How a call of the fetcher runs: [errors] are the errors of the attempts
    that were followed by a retry.  Either all the attempts that were left
    were used, the line of exhaustion closes the trace and the result is
    [null]; or one last request closes the trace, and it was answered or
    failed with an error that is not transient and is thrown. *)
Definition fetcher_run (P : Platform) (sig : string) (attempt : Z)
  (w : World P) (errors : list JsError) : Prop :=
  Forall (fun e => transient e = true) errors
  /\ ((List.length errors = attemptsLeft attempt
       /\ result_of (fetchTransactionWithBackoff P sig attempt w)
          = Normal None
       /\ trace_of (fetchTransactionWithBackoff P sig attempt w)
          = retryBlocks sig attempt errors
              ++ [Console_log (exhaustedLine sig)])
      \/ ((List.length errors < attemptsLeft attempt)%nat
          /\ trace_of (fetchTransactionWithBackoff P sig attempt w)
             = retryBlocks sig attempt errors
                 ++ [Rpc_getParsedTransaction sig 0]
          /\ ((exists tx,
                  result_of (fetchTransactionWithBackoff P sig attempt w)
                  = Normal tx)
              \/ (exists e,
                     result_of (fetchTransactionWithBackoff P sig attempt w)
                     = Throw e
                     /\ transient e = false)))).

(** The listing requests of a trace. *)
Fixpoint listings {PK} (tr : list (Event PK)) : list PK :=
  match tr with
  | [] => []
  | Rpc_getSignaturesForAddress pk :: rest => pk :: listings rest
  | _ :: rest => listings rest
  end.

(** How a request asked for the details of a signature. *)
Definition asks_version_0 {PK} (sig : string) (e : Event PK) : Prop :=
  match e with
  | Rpc_getParsedTransaction s v => s = sig /\ v = 0
  | _ => True
  end.

(** The events of the loop for one listed entry: between one and ten detail
    requests, all for the signature of the entry, no listing request, and
    sleeps of at most 95500 ms together. *)
Definition entry_block {PK} (s : SignatureInfo) (block : list (Event PK))
  : Prop :=
  (exists n : nat,
      (1 <= n <= 10)%nat /\ fetches block = repeat (signature s) n)
  /\ listings block = []
  /\ total (sleeps block) <= 95500.

(** A trace of the loop over a listing: one block for each entry, in
    listing order, until the loop is over; the entries that follow leave
    nothing. *)
Inductive visits {PK : Type}
  : list SignatureInfo -> list (Event PK) -> Prop :=
| visits_done (sigs : list SignatureInfo) : visits sigs []
| visits_entry (s : SignatureInfo) (rest : list SignatureInfo)
    (block tr : list (Event PK)) :
    entry_block s block -> visits rest tr -> visits (s :: rest) (block ++ tr).

(** What the requests of one run of [getTransactions] are allowed to be,
    given the key and the listing: the listing request comes first and is
    the only one; what follows is one block for each listed entry, in
    listing order, each with at most ten detail requests, all for the
    signature of that entry, and at most 95500 ms of sleep; so the detail
    requests are for listed signatures and the totals are bounded by the
    length of the listing. *)
Definition within_budget {PK} (pk : PK) (sigs : list SignatureInfo)
  (tr : list (Event PK)) : Prop :=
  hd_error tr = Some (Rpc_getSignaturesForAddress pk)
  /\ listings tr = [pk]
  /\ (exists tr', tr = Rpc_getSignaturesForAddress pk :: tr'
                  /\ visits sigs tr')
  /\ (List.length (fetches tr) <= 10 * List.length sigs)%nat
  /\ incl (fetches tr) (map signature sigs)
  /\ total (sleeps tr) <= 95500 * Z.of_nat (List.length sigs).

(** The constant fields of a normalized record. *)
Definition fixed_fields (walletAddress : string) (r : SimplifiedTransaction)
  : Prop :=
  network r = "Solana"%string
  /\ wallet_address r = walletAddress
  /\ token_network (token r) = "Solana"%string
  /\ token_name (token r) = "solana"%string
  /\ symbol (token r) = "sol"%string
  /\ display_decimals (token r) = 2.

(** The conditions under which the normalizer builds a record. *)
Definition normalizable (P : Platform) (tx : RawTransaction) : Prop :=
  (exists m pre post,
      meta tx = Some m
      /\ preTokenBalances m = Some pre
      /\ postTokenBalances m = Some post)
  /\ (forall T, blockTime tx = Some T -> T <> 0 ->
                exists iso, Date_toISOString P (T * 1000) = Normal iso).

Module ServiceExamples.

(** Files as an association list; a write replaces the file. *)
Definition disk : FileSystem :=
  {| Files := list (string * string);
     fs_writeFile path data fs :=
       (Normal tt,
        (path, data)
          :: filter (fun f => negb (String.eqb (fst f) path)) fs) |}.

(** A file system that refuses every write. *)
Definition readOnly : FileSystem :=
  {| Files := unit;
     fs_writeFile path data fs :=
       (Throw (mkError "Error" "EROFS: read-only file system"), fs) |}.

(** A stand-in for the serializer: the signatures of the records. *)
Definition hashes (records : list SimplifiedTransaction) : string :=
  String.concat "," (map transaction_hash records).

(** A transaction whose meta lacks the post balances. *)
Definition halfTransaction : RawTransaction :=
  {| slot := slot Examples.sampleTransaction;
     blockTime := blockTime Examples.sampleTransaction;
     meta :=
       Some {| transactionHash := None;
               fee := Some 5000;
               computeUnitsConsumed := None;
               preTokenBalances := Some [];
               postTokenBalances := None |};
     transaction := transaction Examples.sampleTransaction |}.

End ServiceExamples.

(** ** Strings *)

Lemma prefix_append (p s : string) :
  String.prefix p s = true <-> exists b, s = (p ++ b)%string.
Proof.
  revert s; induction p as [|c p IH]; intros [|d s]; simpl.
  - split; [intros _; now exists ""%string | reflexivity].
  - split; [intros _; now exists (String d s) | reflexivity].
  - split; [discriminate | intros [b Hb]; discriminate].
  - destruct (ascii_dec c d) as [->|Hcd].
    + rewrite IH. split; intros [b Hb]; exists b; congruence.
    + split; [discriminate | intros [b Hb]; congruence].
Qed.

Lemma includes_unfold (s sub : string) :
  includes s sub =
  if String.prefix sub s then true
  else match s with
       | EmptyString => false
       | String _ rest => includes rest sub
       end.
Proof. destruct s; reflexivity. Qed.

(** [includes] finds exactly the strings that occur as a factor. *)
Lemma includes_spec (s sub : string) :
  includes s sub = true <-> exists a b, s = (a ++ sub ++ b)%string.
Proof.
  induction s as [|c s IH]; rewrite includes_unfold.
  - destruct (String.prefix sub "") eqn:E.
    + split; [intros _ | reflexivity].
      apply prefix_append in E as [b Hb]. now exists ""%string, b.
    + split; [discriminate |].
      intros [[|x a] [b Hb]]; simpl in Hb; [|discriminate].
      assert (String.prefix sub "" = true) by (apply prefix_append; eauto).
      congruence.
  - destruct (String.prefix sub (String c s)) eqn:E.
    + split; [intros _ | reflexivity].
      apply prefix_append in E as [b Hb]. now exists ""%string, b.
    + rewrite IH. split.
      * intros (a & b & ->). now exists (String c a), b.
      * intros ([|x a] & b & Hb); simpl in Hb.
        -- assert (String.prefix sub (String c s) = true)
             by (apply prefix_append; eauto).
           congruence.
        -- injection Hb as -> ->. eauto.
Qed.

(** ** The backoff schedule *)

Lemma backoffDelay_capped (n : Z) : 6 <= n -> backoffDelay n = 16000.
Proof.
  intros H. unfold backoffDelay, Math_min.
  assert (2 ^ 5 <= 2 ^ (n - 1)) by (apply Z.pow_le_mono_r; lia).
  change (2 ^ 5) with 32 in *. lia.
Qed.

(** ** One call of the fetcher *)

Section Fetcher.

Context (P : Platform).

(** The text of the function, as one equation. *)
Lemma fetch_unfold (sig : string) (attempt : Z) (w : World P) :
  fetchTransactionWithBackoff P sig attempt w =
  if attempt >? 10 then
    (Normal None, w, [Console_log (exhaustedLine sig)])
  else
    match getParsedTransaction P sig 0 w with
    | (Normal tx, w1) => (Normal tx, w1, [Rpc_getParsedTransaction sig 0])
    | (Throw error, w1) =>
        if transient error then
          after (retryEvents sig (retryLine error (backoffDelay attempt))
                   (backoffDelay attempt))
                (fetchTransactionWithBackoff P sig (attempt + 1) w1)
        else (Throw error, w1, [Rpc_getParsedTransaction sig 0])
    end.
Proof.
  rewrite fetchTransactionWithBackoff_equation_1.
  destruct (Z_gt_le_dec attempt 10) as [Hgt|Hle].
  - replace (attempt >? 10) with true by (symmetry; apply Z.gtb_lt; lia).
    reflexivity.
  - replace (attempt >? 10) with false
      by (symmetry; rewrite Z.gtb_ltb; apply Z.ltb_ge; lia).
    rewrite fetchTransactionWithBackoff_clause_1_equation_2.
    cbv zeta. unfold try_catch, rpc_getParsedTransaction, request.
    destruct (getParsedTransaction P sig 0 w) as [[tx|e] w1]; [reflexivity|].
    unfold transient, retryLine, mentions_version, mentions_429.
    destruct (includes (message e) VERSION_NOT_SUPPORTED); simpl.
    + unfold bind, console_log, sleep, emit, after, retryEvents.
      destruct (fetchTransactionWithBackoff P sig (attempt + 1) w1)
        as [[r w2] t]; reflexivity.
    + destruct (includes (message e) "429").
      * unfold bind, console_log, sleep, emit, after, retryEvents.
        destruct (fetchTransactionWithBackoff P sig (attempt + 1) w1)
          as [[r w2] t]; reflexivity.
      * reflexivity.
Qed.

Lemma fetch_exhausted (sig : string) (attempt : Z) (w : World P) :
  10 < attempt ->
  fetchTransactionWithBackoff P sig attempt w =
  (Normal None, w, [Console_log (exhaustedLine sig)]).
Proof.
  intros H. rewrite fetch_unfold.
  replace (attempt >? 10) with true by (symmetry; apply Z.gtb_lt; lia).
  reflexivity.
Qed.

Lemma fetch_answered (sig : string) (attempt : Z) (w w1 : World P)
  (tx : option RawTransaction) :
  attempt <= 10 ->
  getParsedTransaction P sig 0 w = (Normal tx, w1) ->
  fetchTransactionWithBackoff P sig attempt w =
  (Normal tx, w1, [Rpc_getParsedTransaction sig 0]).
Proof.
  intros H E. rewrite fetch_unfold, E.
  replace (attempt >? 10) with false
    by (symmetry; rewrite Z.gtb_ltb; apply Z.ltb_ge; lia).
  reflexivity.
Qed.

Lemma fetch_retry (sig : string) (attempt : Z) (w w1 : World P) (e : JsError) :
  attempt <= 10 ->
  getParsedTransaction P sig 0 w = (Throw e, w1) ->
  transient e = true ->
  fetchTransactionWithBackoff P sig attempt w =
  after (retryEvents sig (retryLine e (backoffDelay attempt))
           (backoffDelay attempt))
        (fetchTransactionWithBackoff P sig (attempt + 1) w1).
Proof.
  intros H E T. rewrite fetch_unfold, E, T.
  replace (attempt >? 10) with false
    by (symmetry; rewrite Z.gtb_ltb; apply Z.ltb_ge; lia).
  reflexivity.
Qed.

Lemma fetch_fatal (sig : string) (attempt : Z) (w w1 : World P) (e : JsError) :
  attempt <= 10 ->
  getParsedTransaction P sig 0 w = (Throw e, w1) ->
  transient e = false ->
  fetchTransactionWithBackoff P sig attempt w =
  (Throw e, w1, [Rpc_getParsedTransaction sig 0]).
Proof.
  intros H E T. rewrite fetch_unfold, E, T.
  replace (attempt >? 10) with false
    by (symmetry; rewrite Z.gtb_ltb; apply Z.ltb_ge; lia).
  reflexivity.
Qed.

(** While the version error lasts, the fetcher runs through what is left of
    the ten attempts and gives up. *)
Lemma fetch_unsupported_run (sig : string) :
  forall (k : nat) (attempt : Z) (w : World P),
    attempt = 11 - Z.of_nat k ->
    unsupported_for P sig k w ->
    exists w',
      fetchTransactionWithBackoff P sig attempt w =
      (Normal None, w',
       unsupportedEvents sig (attemptsFrom attempt k)
         ++ [Console_log (exhaustedLine sig)]).
Proof.
  induction k as [|k IH]; intros attempt w Hk Hfail.
  - exists w. rewrite fetch_exhausted by lia. reflexivity.
  - destruct Hfail as (e & w1 & E & V & Hrest).
    destruct (IH (attempt + 1) w1 ltac:(lia) Hrest) as [w' Hrun].
    exists w'. rewrite (fetch_retry sig attempt w w1 e), Hrun.
    + unfold after, retryLine. rewrite V. reflexivity.
    + lia.
    + exact E.
    + unfold transient. rewrite V. reflexivity.
Qed.

End Fetcher.


(** ** Traces *)

Lemma trace_of_after {A W PK} (tr : list (Event PK))
  (x : Completion A * W * list (Event PK)) :
  trace_of (after tr x) = tr ++ trace_of x.
Proof. destruct x as [[r w] t]; reflexivity. Qed.

Lemma result_of_after {A W PK} (tr : list (Event PK))
  (x : Completion A * W * list (Event PK)) :
  result_of (after tr x) = result_of x.
Proof. destruct x as [[r w] t]; reflexivity. Qed.

(** ** The claims about the fetcher *)

(** C8.  For every attempt number [n >= 1] the delay the fetcher computes is
    [min (500 * 2^(n-1)) 16000]: 500, 1000, 2000, 4000 and 8000 for the
    first five attempts and 16000 from the sixth on; it is the delay of the
    timer the fetcher starts when attempt [n] fails with a transient error. *)
Theorem backoff_delay_schedule (n : Z) (H : 1 <= n) :
  backoffDelay n = Z.min (500 * 2 ^ (n - 1)) 16000
  /\ (n = 1 -> backoffDelay n = 500)
  /\ (n = 2 -> backoffDelay n = 1000)
  /\ (n = 3 -> backoffDelay n = 2000)
  /\ (n = 4 -> backoffDelay n = 4000)
  /\ (n = 5 -> backoffDelay n = 8000)
  /\ (6 <= n -> backoffDelay n = 16000)
  /\ (forall (P : Platform) (sig : string) (w w1 : World P) (e : JsError),
        n <= 10 ->
        getParsedTransaction P sig 0 w = (Throw e, w1) ->
        transient e = true ->
        hd_error (sleeps (trace_of (fetchTransactionWithBackoff P sig n w)))
        = Some (Z.min (500 * 2 ^ (n - 1)) 16000)).
Proof.
  split; [reflexivity|].
  repeat split; try (intros ->; reflexivity).
  - apply backoffDelay_capped.
  - intros P sig w w1 e Hn E T.
    rewrite (fetch_retry P sig n w w1 e Hn E T), trace_of_after.
    reflexivity.
Qed.

Lemma backoff_delay_schedule_witness :
  1 <= 7 /\ backoffDelay 7 = 16000.
Proof.
  split; [lia|].
  apply (backoff_delay_schedule 7); lia.
Defined.

(** C1, as amended.  When the first ten detail requests of a signature all
    fail with the version error, the fetcher entered with [attempt = 1]
    sends exactly these ten requests (the eleventh entry finds
    [attempt > 10] and sends none), sleeps after each of them for 500, 1000,
    2000, 4000, 8000 and then five times 16000 ms, and returns [null]. *)
Theorem unsupported_exhausts_ten_attempts
  (P : Platform) (sig : string) (w : World P)
  (H : unsupported_for P sig 10 w) :
  exists w',
    fetchTransactionWithBackoff P sig 1 w =
    (Normal None, w',
     unsupportedEvents sig [1; 2; 3; 4; 5; 6; 7; 8; 9; 10]
       ++ [Console_log (exhaustedLine sig)])
    /\ fetches (trace_of (fetchTransactionWithBackoff P sig 1 w))
       = repeat sig 10
    /\ sleeps (trace_of (fetchTransactionWithBackoff P sig 1 w))
       = [500; 1000; 2000; 4000; 8000; 16000; 16000; 16000; 16000; 16000].
Proof.
  destruct (fetch_unsupported_run P sig 10 1 w eq_refl H) as [w' E].
  exists w'. rewrite E. repeat split.
Qed.

Lemma stubborn_unsupported (sig : string) (n : nat) :
  forall w : World Examples.stubborn,
    unsupported_for Examples.stubborn sig n w.
Proof.
  induction n as [|n IH]; intros w; simpl; [exact I|].
  exists Examples.versionError, (S w).
  split; [reflexivity|]. split; [reflexivity|]. apply IH.
Qed.

Lemma unsupported_exhausts_ten_attempts_witness :
  unsupported_for Examples.stubborn "s1" 10 0%nat
  /\ exists w',
      fetchTransactionWithBackoff Examples.stubborn "s1" 1 0%nat =
      (Normal None, w',
       unsupportedEvents "s1" [1; 2; 3; 4; 5; 6; 7; 8; 9; 10]
         ++ [Console_log (exhaustedLine "s1")])
      /\ fetches (trace_of
            (fetchTransactionWithBackoff Examples.stubborn "s1" 1 0%nat))
         = repeat "s1"%string 10
      /\ sleeps (trace_of
            (fetchTransactionWithBackoff Examples.stubborn "s1" 1 0%nat))
         = [500; 1000; 2000; 4000; 8000; 16000; 16000; 16000; 16000; 16000].
Proof.
  assert (H : unsupported_for Examples.stubborn "s1" 10 0%nat).
  { simpl.
    repeat (eexists; eexists; split; [reflexivity|]; split; [reflexivity|]).
    exact I. }
  split; [exact H|].
  exact (unsupported_exhausts_ten_attempts Examples.stubborn "s1" 0%nat H).
Defined.

(** C1, as stated, fails: on a node that answers every detail request with
    the version error the fetcher does not send eleven requests. *)
Lemma eleven_attempts_counterexample :
  (forall n, unsupported_for Examples.stubborn "s1" n 0%nat)
  /\ List.length
       (fetches (trace_of
          (fetchTransactionWithBackoff Examples.stubborn "s1" 1 0%nat)))
     <> 11%nat.
Proof.
  split.
  - intros n. apply stubborn_unsupported.
  - vm_compute. discriminate.
Qed.

(** C5.  When the detail request of a signature meets a 429 error on the
    first and on the second attempt and is answered on the third, the
    fetcher sleeps exactly twice, 500 ms and then 1000 ms, and returns the
    transaction of the third attempt. *)
Theorem two_rate_limits_then_answer
  (P : Platform) (sig : string) (w w1 w2 w3 : World P)
  (e1 e2 : JsError) (tx : option RawTransaction)
  (H1 : getParsedTransaction P sig 0 w = (Throw e1, w1))
  (R1 : mentions_429 e1 = true)
  (H2 : getParsedTransaction P sig 0 w1 = (Throw e2, w2))
  (R2 : mentions_429 e2 = true)
  (H3 : getParsedTransaction P sig 0 w2 = (Normal tx, w3)) :
  fetchTransactionWithBackoff P sig 1 w =
  (Normal tx, w3,
   retryEvents sig (retryLine e1 500) 500
     ++ retryEvents sig (retryLine e2 1000) 1000
     ++ [Rpc_getParsedTransaction sig 0])
  /\ sleeps (trace_of (fetchTransactionWithBackoff P sig 1 w)) = [500; 1000]
  /\ fetches (trace_of (fetchTransactionWithBackoff P sig 1 w))
     = [sig; sig; sig].
Proof.
  assert (T1 : transient e1 = true)
    by (unfold transient; rewrite R1; apply orb_true_r).
  assert (T2 : transient e2 = true)
    by (unfold transient; rewrite R2; apply orb_true_r).
  rewrite (fetch_retry P sig 1 w w1 e1 ltac:(lia) H1 T1).
  rewrite (fetch_retry P sig (1 + 1) w1 w2 e2 ltac:(lia) H2 T2).
  rewrite (fetch_answered P sig (1 + 1 + 1) w2 w3 tx ltac:(lia) H3).
  repeat split.
Qed.

Lemma two_rate_limits_then_answer_witness :
  fetchTransactionWithBackoff Examples.throttled "s1" 1 0%nat =
  (Normal (Some Examples.sampleTransaction), 3%nat,
   retryEvents "s1" (retryLine Examples.rateLimitError 500) 500
     ++ retryEvents "s1" (retryLine Examples.rateLimitError 1000) 1000
     ++ [Rpc_getParsedTransaction "s1" 0])
  /\ sleeps (trace_of (fetchTransactionWithBackoff Examples.throttled "s1" 1 0%nat))
     = [500; 1000]
  /\ fetches (trace_of (fetchTransactionWithBackoff Examples.throttled "s1" 1 0%nat))
     = ["s1"; "s1"; "s1"]%string.
Proof.
  apply (two_rate_limits_then_answer Examples.throttled "s1"
           0%nat 1%nat 2%nat 3%nat
           Examples.rateLimitError Examples.rateLimitError
           (Some Examples.sampleTransaction)); reflexivity.
Defined.

(** ** The per-signature loop *)

Section LoopFacts.

Context (P : Platform) {R : Type}.
Variable build : RawTransaction -> SignatureInfo -> Completion R.

(** One iteration, by the outcome of the fetch and of the builder. *)
Lemma iteration_unfold (s : SignatureInfo) (txs : list R) (w : World P) :
  iteration P build s txs w =
  match fetchTransactionWithBackoff P (signature s) 1 w with
  | (Normal (Some tx), w1, tr) =>
      match build tx s with
      | Normal record =>
          (Normal (txs ++ [record],
                   if (100 <=? List.length (txs ++ [record]))%nat
                   then Break else Continue),
           w1, tr)
      | Throw e =>
          (Normal (txs, Continue), w1, tr ++ [Console_error (failedLine s) e])
      end
  | (Normal None, w1, tr) => (Normal (txs, Continue), w1, tr)
  | (Throw e, w1, tr) =>
      (Normal (txs, Continue), w1, tr ++ [Console_error (failedLine s) e])
  end.
Proof.
  unfold iteration, tryBody, try_catch, bind, lift, ret, console_error, emit.
  destruct (fetchTransactionWithBackoff P (signature s) 1 w)
    as [[[[tx|]|e] w1] tr]; try reflexivity.
  - destruct (build tx s) as [record|e].
    + destruct (100 <=? List.length (txs ++ [record]))%nat;
        rewrite !app_nil_r; reflexivity.
    + rewrite !app_nil_r. reflexivity.
  - rewrite app_nil_r. reflexivity.
Qed.


Lemma forSignatures_cons (s : SignatureInfo) (rest : list SignatureInfo)
  (txs : list R) (w : World P) :
  forSignatures P build (s :: rest) txs w =
  match iteration P build s txs w with
  | (Normal (out, Break), w1, tr) => (Normal out, w1, tr)
  | (Normal (out, Continue), w1, tr) =>
      after tr (forSignatures P build rest out w1)
  | (Throw e, w1, tr) => (Throw e, w1, tr)
  end.
Proof.
  simpl. unfold bind at 1.
  destruct (iteration P build s txs w) as [[[[out []]|e] w1] tr];
    try reflexivity.
  unfold ret. rewrite app_nil_r. reflexivity.
Qed.

Lemma contributions_cons (s : SignatureInfo) (rest : list SignatureInfo)
  (w : World P) :
  contributions P build (s :: rest) w =
  match fetchTransactionWithBackoff P (signature s) 1 w with
  | (Normal (Some tx), w1, _) =>
      match build tx s with
      | Normal record => record :: contributions P build rest w1
      | Throw _ => contributions P build rest w1
      end
  | (_, w1, _) => contributions P build rest w1
  end.
Proof.
  simpl. unfold contribution.
  destruct (fetchTransactionWithBackoff P (signature s) 1 w)
    as [[[[tx|]|e] w1] tr]; try reflexivity.
  destruct (build tx s); reflexivity.
Qed.

Lemma firstn_exact {A} (l l' : list A) (n : nat) :
  List.length l = n -> firstn n (l ++ l') = l.
Proof.
  intros <-. rewrite firstn_app, Nat.sub_diag, firstn_all. simpl.
  apply app_nil_r.
Qed.

(** The loop computes the specified output: it returns normally, and the
    array it returns is the array it started from followed by the
    contributions of the signatures, cut at one hundred. *)
Lemma forSignatures_refines (sigs : list SignatureInfo) :
  forall (txs : list R) (w : World P),
    (List.length txs < 100)%nat ->
    exists w' tr,
      forSignatures P build sigs txs w =
      (Normal (firstn 100 (txs ++ contributions P build sigs w)), w', tr).
Proof.
  induction sigs as [|s rest IH]; intros txs w Hlen.
  - exists w, []. cbn [forSignatures contributions]. unfold ret.
    rewrite app_nil_r, firstn_all2 by lia. reflexivity.
  - rewrite forSignatures_cons, iteration_unfold, contributions_cons.
    destruct (fetchTransactionWithBackoff P (signature s) 1 w)
      as [[[[tx|]|e] w1] tr].
    + destruct (build tx s) as [record|e].
      * destruct (100 <=? List.length (txs ++ [record]))%nat eqn:Cap.
        -- exists w1, tr.
           apply Nat.leb_le in Cap. rewrite length_app in Cap. simpl in Cap.
           change (record :: contributions P build rest w1)
             with ([record] ++ contributions P build rest w1).
           rewrite app_assoc, firstn_exact; [reflexivity|].
           rewrite length_app. simpl. lia.
        -- apply Nat.leb_gt in Cap.
           destruct (IH (txs ++ [record]) w1 Cap) as (w' & tr' & E).
           exists w', (tr ++ tr'). rewrite E. simpl.
           rewrite <- app_assoc. reflexivity.
      * destruct (IH txs w1 Hlen) as (w' & tr' & E).
        exists w', ((tr ++ [Console_error (failedLine s) e]) ++ tr').
        rewrite E. reflexivity.
    + destruct (IH txs w1 Hlen) as (w' & tr' & E).
      exists w', (tr ++ tr'). rewrite E. reflexivity.
    + destruct (IH txs w1 Hlen) as (w' & tr' & E).
      exists w', ((tr ++ [Console_error (failedLine s) e]) ++ tr').
      rewrite E. reflexivity.
Qed.

(** Once the array holds one hundred records the loop is over: the
    signatures that follow change neither the result, nor the state of the
    node, nor the trace. *)
Lemma forSignatures_stops (pre rest : list SignatureInfo) :
  forall (txs out : list R) (w w' : World P) (tr : list (Event (PublicKey P))),
    (List.length txs < 100)%nat ->
    forSignatures P build pre txs w = (Normal out, w', tr) ->
    List.length out = 100%nat ->
    forSignatures P build (pre ++ rest) txs w = (Normal out, w', tr).
Proof.
  induction pre as [|s pre IH]; intros txs out w w' tr Hlen E Hout.
  - simpl in E. unfold ret in E. injection E as <- <- <-. lia.
  - rewrite <- app_comm_cons, forSignatures_cons.
    rewrite forSignatures_cons in E.
    destruct (iteration P build s txs w) as [[[[mid []]|e] w1] t] eqn:It.
    + destruct (forSignatures P build pre mid w1) as [[r w2] t2] eqn:E2.
      simpl in E. injection E as -> -> <-.
      assert (Hmid : (List.length mid < 100)%nat).
      { rewrite iteration_unfold in It.
        destruct (fetchTransactionWithBackoff P (signature s) 1 w)
          as [[[[tx|]|e] w1'] tr'].
        - destruct (build tx s) as [record|e].
          + destruct (100 <=? List.length (txs ++ [record]))%nat eqn:Cap;
              [discriminate|].
            apply Nat.leb_gt in Cap. injection It as <- _ _. exact Cap.
          + injection It as <- _ _. exact Hlen.
        - injection It as <- _ _. exact Hlen.
        - injection It as <- _ _. exact Hlen. }
      rewrite (IH mid out w1 w' t2 Hmid E2 Hout). reflexivity.
    + exact E.
    + discriminate.
Qed.

End LoopFacts.

(** ** The whole operation *)

Section Operation.

Context (P : Platform).

Lemma listSignatures_unfold (pk : PublicKey P) (w : World P) :
  listSignatures P pk w =
  match getSignaturesForAddress P pk w with
  | (Normal sigs, w1) => (Normal sigs, w1, [Rpc_getSignaturesForAddress pk])
  | (Throw e, w1) =>
      (Throw (mkError "Error" "Failed to fetch signatures"), w1,
       [Rpc_getSignaturesForAddress pk;
        Console_error "Failed to fetch signatures:" e])
  end.
Proof.
  unfold listSignatures, try_catch, rpc_getSignaturesForAddress, request.
  destruct (getSignaturesForAddress P pk w) as [[sigs|e] w1]; reflexivity.
Qed.

Lemma getTransactions_valid (a : string) (pk : PublicKey P) (w : World P) :
  PublicKey_new P a = Normal pk ->
  getTransactions P a w =
  match getSignaturesForAddress P pk w with
  | (Normal sigs, w1) =>
      after [Rpc_getSignaturesForAddress pk]
            (forSignatures P (normalize P a) sigs [] w1)
  | (Throw e, w1) =>
      (Throw (mkError "Error" "Failed to fetch signatures"), w1,
       [Rpc_getSignaturesForAddress pk;
        Console_error "Failed to fetch signatures:" e])
  end.
Proof.
  intros Hpk. unfold getTransactions, isValidSolanaPublicKey.
  rewrite Hpk. simpl. unfold bind, lift. rewrite listSignatures_unfold.
  destruct (getSignaturesForAddress P pk w) as [[sigs|e] w1]; [|reflexivity].
  unfold after.
  destruct (forSignatures P (normalize P a) sigs [] w1) as [[r w2] t].
  reflexivity.
Qed.

Lemma getTransactions_trimming_valid (a : string) (pk : PublicKey P)
  (w : World P) :
  PublicKey_new P a = Normal pk ->
  getTransactions_trimming P a w =
  match getSignaturesForAddress P pk w with
  | (Normal sigs, w1) =>
      after [Rpc_getSignaturesForAddress pk]
            (forSignatures P trim sigs [] w1)
  | (Throw e, w1) =>
      (Throw (mkError "Error" "Failed to fetch signatures"), w1,
       [Rpc_getSignaturesForAddress pk;
        Console_error "Failed to fetch signatures:" e])
  end.
Proof.
  intros Hpk. unfold getTransactions_trimming.
  rewrite Hpk. unfold bind, lift. rewrite listSignatures_unfold.
  destruct (getSignaturesForAddress P pk w) as [[sigs|e] w1]; [|reflexivity].
  unfold after.
  destruct (forSignatures P trim sigs [] w1) as [[r w2] t].
  reflexivity.
Qed.

(** The record of a signature carries that signature. *)
Lemma normalize_hash (a : string) (tx : RawTransaction) (s : SignatureInfo)
  (r : SimplifiedTransaction) :
  normalize P a tx s = Normal r -> transaction_hash r = signature s.
Proof.
  unfold normalize. intros H.
  destruct (meta tx) as [m|]; [|discriminate].
  destruct (preTokenBalances m); [|discriminate].
  destruct (postTokenBalances m); [|discriminate].
  destruct (timestampOf P tx); [|discriminate].
  injection H as <-. reflexivity.
Qed.

Lemma normalize_timestamp (a : string) (tx : RawTransaction)
  (s : SignatureInfo) (r : SimplifiedTransaction) :
  normalize P a tx s = Normal r -> timestampOf P tx = Normal (timestamp r).
Proof.
  unfold normalize. intros H.
  destruct (meta tx) as [m|]; [|discriminate].
  destruct (preTokenBalances m); [|discriminate].
  destruct (postTokenBalances m); [|discriminate].
  destruct (timestampOf P tx); [|discriminate].
  injection H as <-. reflexivity.
Qed.

End Operation.

Lemma Subseq_firstn {A} (n : nat) (l1 l2 : list A) :
  Subseq l1 l2 -> Subseq (firstn n l1) l2.
Proof.
  intros H. revert n. induction H as [|x l1 l2 H IH|x l1 l2 H IH]; intros n.
  - rewrite firstn_nil. apply Subseq_nil.
  - apply Subseq_skip, IH.
  - destruct n; simpl.
    + apply Subseq_skip, (IH 0%nat).
    + apply Subseq_take, IH.
Qed.

(** The records of the normalizing revision carry the signatures they come
    from, so they can be read back against the listing. *)
Lemma contributions_follow_listing (P : Platform) (a : string)
  (sigs : list SignatureInfo) :
  forall w : World P,
    Subseq (map transaction_hash (contributions P (normalize P a) sigs w))
           (map signature sigs).
Proof.
  induction sigs as [|s rest IH]; intros w.
  - apply Subseq_nil.
  - rewrite contributions_cons.
    destruct (fetchTransactionWithBackoff P (signature s) 1 w)
      as [[[[tx|]|e] w1] tr]; simpl; try (apply Subseq_skip, IH).
    destruct (normalize P a tx s) as [r|e] eqn:N; simpl.
    + rewrite (normalize_hash P a tx s r N). apply Subseq_take, IH.
    + apply Subseq_skip, IH.
Qed.

(** ** The claims about errors of the detail request *)

(** C2.  An error of the detail request is retried (console line, sleep,
    recursive call with [attempt + 1]) exactly when its message contains
    the version literal or ["429"]; any other error is rethrown at once,
    without a sleep, and in the loop it ends the processing of that
    signature only: it is logged and the loop goes on with the next one. *)
Theorem retry_iff_transient
  (P : Platform) (sig : string) (attempt : Z) (w w1 : World P) (e : JsError)
  (Hle : attempt <= 10)
  (E : getParsedTransaction P sig 0 w = (Throw e, w1)) :
  (transient e = true <->
   (exists a b, message e = (a ++ VERSION_NOT_SUPPORTED ++ b)%string)
   \/ (exists a b, message e = (a ++ "429" ++ b)%string))
  /\ (transient e = true ->
      fetchTransactionWithBackoff P sig attempt w =
      after (retryEvents sig (retryLine e (backoffDelay attempt))
               (backoffDelay attempt))
            (fetchTransactionWithBackoff P sig (attempt + 1) w1))
  /\ (transient e = false ->
      fetchTransactionWithBackoff P sig attempt w =
      (Throw e, w1, [Rpc_getParsedTransaction sig 0]))
  /\ (sleeps (trace_of (fetchTransactionWithBackoff P sig attempt w)) <> []
      <-> transient e = true)
  /\ (transient e = false ->
      forall (R : Type)
             (build : RawTransaction -> SignatureInfo -> Completion R)
             (s : SignatureInfo) (rest : list SignatureInfo) (txs : list R),
        signature s = sig ->
        forSignatures P build (s :: rest) txs w =
        after [Rpc_getParsedTransaction sig 0; Console_error (failedLine s) e]
              (forSignatures P build rest txs w1)).
Proof.
  split; [|split; [|split; [|split]]].
  - unfold transient, mentions_version, mentions_429.
    rewrite orb_true_iff, !includes_spec. reflexivity.
  - intros T. apply (fetch_retry P sig attempt w w1 e Hle E T).
  - intros T. apply (fetch_fatal P sig attempt w w1 e Hle E T).
  - destruct (transient e) eqn:T.
    + rewrite (fetch_retry P sig attempt w w1 e Hle E T), trace_of_after.
      split; [reflexivity | intros _; discriminate].
    + rewrite (fetch_fatal P sig attempt w w1 e Hle E T).
      split; [intros H; now contradiction H | discriminate].
  - intros T R build s rest txs Hs.
    rewrite forSignatures_cons, iteration_unfold, Hs.
    rewrite (fetch_fatal P sig 1 w w1 e ltac:(lia) E T).
    reflexivity.
Qed.

Lemma retry_iff_transient_witness :
  (1 <= 10
   /\ getParsedTransaction Examples.mixed "broken" 0 3%nat
      = (Throw Examples.networkError, 4%nat))
  /\ fetchTransactionWithBackoff Examples.mixed "broken" 1 3%nat
     = (Throw Examples.networkError, 4%nat,
        [Rpc_getParsedTransaction "broken" 0]).
Proof.
  split; [split; [lia | reflexivity]|].
  apply (retry_iff_transient Examples.mixed "broken" 1 3%nat 4%nat
           Examples.networkError); [lia | reflexivity | reflexivity].
Defined.

(** C10.  When the detail request is answered with [null], the fetcher
    returns that [null] after the one request, with no sleep and no retry;
    the loop pushes nothing and goes on with the next signature.  The loop
    does the same for every [null] the fetcher returns, so for the [null]
    of an exhausted signature too: the array does not tell them apart. *)
Theorem null_transaction_is_skipped
  (P : Platform) (sig : string) (attempt : Z) (w w1 : World P)
  (Hle : attempt <= 10)
  (E : getParsedTransaction P sig 0 w = (Normal None, w1)) :
  fetchTransactionWithBackoff P sig attempt w =
  (Normal None, w1, [Rpc_getParsedTransaction sig 0])
  /\ sleeps (trace_of (fetchTransactionWithBackoff P sig attempt w)) = []
  /\ fetches (trace_of (fetchTransactionWithBackoff P sig attempt w)) = [sig]
  /\ (forall (R : Type)
             (build : RawTransaction -> SignatureInfo -> Completion R)
             (s : SignatureInfo) (rest : list SignatureInfo) (txs : list R),
        signature s = sig ->
        forSignatures P build (s :: rest) txs w =
        after [Rpc_getParsedTransaction sig 0]
              (forSignatures P build rest txs w1))
  /\ (forall (R : Type)
             (build : RawTransaction -> SignatureInfo -> Completion R)
             (s : SignatureInfo) (rest : list SignatureInfo) (txs : list R)
             (v v1 : World P) (tr : list (Event (PublicKey P))),
        fetchTransactionWithBackoff P (signature s) 1 v
        = (Normal None, v1, tr) ->
        forSignatures P build (s :: rest) txs v =
        after tr (forSignatures P build rest txs v1)).
Proof.
  rewrite (fetch_answered P sig attempt w w1 None Hle E).
  repeat split.
  - intros R build s rest txs Hs.
    rewrite forSignatures_cons, iteration_unfold, Hs.
    rewrite (fetch_answered P sig 1 w w1 None ltac:(lia) E).
    reflexivity.
  - intros R build s rest txs v v1 tr F.
    rewrite forSignatures_cons, iteration_unfold, F.
    reflexivity.
Qed.

Lemma null_transaction_is_skipped_witness :
  (1 <= 10
   /\ getParsedTransaction Examples.mixed "missing" 0 2%nat
      = (Normal None, 3%nat))
  /\ fetchTransactionWithBackoff Examples.mixed "missing" 1 2%nat
     = (Normal None, 3%nat, [Rpc_getParsedTransaction "missing" 0]).
Proof.
  split; [split; [lia | reflexivity]|].
  apply (null_transaction_is_skipped Examples.mixed "missing" 1 2%nat 3%nat);
    [lia | reflexivity].
Defined.

(** ** The claims about the whole operation *)

(** C4.  For an address that the [PublicKey] constructor rejects,
    [getTransactions] throws the invalid-address error with an empty trace:
    no request is sent and the node is left as it was.  The revision
    without the check fails as early, with the error of the constructor. *)
Theorem invalid_address_short_circuits
  (P : Platform) (walletAddress : string) (w : World P)
  (H : isValidSolanaPublicKey P walletAddress = false) :
  getTransactions P walletAddress w
  = (Throw (mkError "Error" "Invalid wallet address"), w, [])
  /\ filter is_network (trace_of (getTransactions P walletAddress w)) = []
  /\ exists e,
       PublicKey_new P walletAddress = Throw e
       /\ getTransactions_trimming P walletAddress w = (Throw e, w, []).
Proof.
  unfold getTransactions. rewrite H. simpl.
  repeat split.
  unfold isValidSolanaPublicKey in H. unfold getTransactions_trimming.
  destruct (PublicKey_new P walletAddress) as [pk|e]; [discriminate|].
  exists e. split; reflexivity.
Qed.

Lemma invalid_address_short_circuits_witness :
  isValidSolanaPublicKey Examples.mixed "not-a-key" = false
  /\ getTransactions Examples.mixed "not-a-key" 0%nat
     = (Throw (mkError "Error" "Invalid wallet address"), 0%nat, []).
Proof.
  split; [reflexivity|].
  apply (invalid_address_short_circuits Examples.mixed "not-a-key" 0%nat).
  reflexivity.
Defined.

(** C6, as amended.  The timestamp of a normalized record is [null] exactly
    when the raw transaction has no block time or has block time zero; for
    a block time [T] other than zero it is the ISO-8601 rendering of
    [T * 1000] milliseconds since the epoch. *)
Theorem timestamp_of_record
  (P : Platform) (walletAddress : string) (tx : RawTransaction)
  (s : SignatureInfo) (r : SimplifiedTransaction)
  (H : normalize P walletAddress tx s = Normal r) :
  (timestamp r = None <-> blockTime tx = None \/ blockTime tx = Some 0)
  /\ (forall T : Z,
        blockTime tx = Some T -> T <> 0 ->
        exists iso,
          Date_toISOString P (T * 1000) = Normal iso
          /\ timestamp r = Some iso).
Proof.
  apply normalize_timestamp in H. unfold timestampOf in H.
  destruct (blockTime tx) as [t|].
  - destruct (Z.eqb_spec t 0) as [Ht|Ht].
    + subst t. injection H as <-. split.
      * split; [intros _; now right | reflexivity].
      * intros T [= <-] HT. now contradiction HT.
    + destruct (Date_toISOString P (t * 1000)) as [iso|e] eqn:D;
        [|discriminate].
      injection H as <-. split.
      * split; [discriminate | intros [Hn|Hz]; congruence].
      * intros T [= <-] _. exists iso. split; [exact D | reflexivity].
  - injection H as <-. split.
    + split; [intros _; now left | reflexivity].
    + intros T HT. discriminate.
Qed.

Lemma timestamp_of_record_witness :
  exists r,
    normalize Examples.mixed Examples.wallet Examples.sampleTransaction
      (Examples.sigOf "a") = Normal r
    /\ timestamp r = Some "2023-11-14T22:13:20.000Z"%string.
Proof.
  destruct (normalize Examples.mixed Examples.wallet
              Examples.sampleTransaction (Examples.sigOf "a"))
    as [r|e] eqn:N; [|discriminate].
  exists r. split; [reflexivity|].
  destruct (timestamp_of_record Examples.mixed Examples.wallet
              Examples.sampleTransaction (Examples.sigOf "a") r N)
    as [_ Hiso].
  destruct (Hiso 1700000000 eq_refl ltac:(lia)) as (iso & D & ->).
  vm_compute in D. injection D as <-. reflexivity.
Defined.

(** C6, as stated, fails: a transaction stamped with block time zero
    carries a block time, whose rendering is that of the epoch, and yet the
    timestamp of its record is [null]. *)
Lemma epoch_timestamp_counterexample :
  exists r,
    normalize Examples.mixed Examples.wallet Examples.epochTransaction
      (Examples.sigOf "epoch") = Normal r
    /\ blockTime Examples.epochTransaction = Some 0
    /\ Date_toISOString Examples.mixed (0 * 1000)
       = Normal "1970-01-01T00:00:00.000Z"%string
    /\ timestamp r = None
    /\ ~ (timestamp r = None <-> blockTime Examples.epochTransaction = None).
Proof.
  eexists. split; [reflexivity|].
  split; [reflexivity|]. split; [reflexivity|]. split; [reflexivity|].
  intros [Hnull _]. specialize (Hnull eq_refl). discriminate.
Qed.

Section Catch.

Context (P : Platform) {R : Type}.
Variable build : RawTransaction -> SignatureInfo -> Completion R.


Lemma forSignatures_normal (sigs : list SignatureInfo) (w : World P) :
  exists out w' tr,
    forSignatures P build sigs [] w = (Normal out, w', tr)
    /\ (List.length out <= 100)%nat
    /\ out = specified_output P build sigs w.
Proof.
  destruct (forSignatures_refines P build sigs [] w) as (w' & tr & E);
    [simpl; lia|].
  rewrite app_nil_l in E.
  exists (specified_output P build sigs w), w', tr.
  split; [exact E|]. split; [apply firstn_le_length | reflexivity].
Qed.

End Catch.



(** C3.  The array [getTransactions] returns never holds more than one
    hundred records, and the loop ends with the push of the hundredth: the
    signatures listed after the one that filled the array leave no request
    in the trace and do not change the result or the state of the node. *)
Theorem output_capped_at_100
  (P : Platform) (walletAddress : string) (w : World P) :
  (forall out w' tr,
      getTransactions P walletAddress w = (Normal out, w', tr) ->
      (List.length out <= 100)%nat)
  /\ (forall out w' tr,
        getTransactions_trimming P walletAddress w = (Normal out, w', tr) ->
        (List.length out <= 100)%nat)
  /\ (forall (R : Type)
             (build : RawTransaction -> SignatureInfo -> Completion R)
             (pre rest : list SignatureInfo) (v v' : World P)
             (out : list R) (tr : list (Event (PublicKey P))),
        forSignatures P build pre [] v = (Normal out, v', tr) ->
        List.length out = 100%nat ->
        forSignatures P build (pre ++ rest) [] v = (Normal out, v', tr))
  /\ (forall (pk : PublicKey P) (pre rest : list SignatureInfo)
             (w1 w' : World P) (out : list SimplifiedTransaction)
             (tr : list (Event (PublicKey P))),
        PublicKey_new P walletAddress = Normal pk ->
        getSignaturesForAddress P pk w = (Normal (pre ++ rest), w1) ->
        forSignatures P (normalize P walletAddress) pre [] w1
        = (Normal out, w', tr) ->
        List.length out = 100%nat ->
        getTransactions P walletAddress w
        = (Normal out, w', Rpc_getSignaturesForAddress pk :: tr)).
Proof.
  split; [|split; [|split]].
  - intros out w' tr.
    destruct (PublicKey_new P walletAddress) as [pk|e] eqn:Hpk.
    + rewrite (getTransactions_valid P walletAddress pk w Hpk).
      destruct (getSignaturesForAddress P pk w) as [[sigs|e] w1];
        [|discriminate].
      destruct (forSignatures_normal P (normalize P walletAddress) sigs w1)
        as (o & v & t & E & Hlen & _).
      rewrite E. simpl. intros [= <- _ _]. exact Hlen.
    + unfold getTransactions, isValidSolanaPublicKey. rewrite Hpk.
      discriminate.
  - intros out w' tr.
    destruct (PublicKey_new P walletAddress) as [pk|e] eqn:Hpk.
    + rewrite (getTransactions_trimming_valid P walletAddress pk w Hpk).
      destruct (getSignaturesForAddress P pk w) as [[sigs|e] w1];
        [|discriminate].
      destruct (forSignatures_normal P trim sigs w1)
        as (o & v & t & E & Hlen & _).
      rewrite E. simpl. intros [= <- _ _]. exact Hlen.
    + unfold getTransactions_trimming, bind, lift. rewrite Hpk.
      discriminate.
  - intros R build pre rest v v' out tr E Hout.
    apply forSignatures_stops; [simpl; lia | exact E | exact Hout].
  - intros pk pre rest w1 w' out tr Hpk L E Hout.
    rewrite (getTransactions_valid P walletAddress pk w Hpk), L.
    rewrite (forSignatures_stops P (normalize P walletAddress) pre rest
               [] out w1 w' tr); [reflexivity | simpl; lia | exact E | exact Hout].
Qed.

Lemma output_capped_at_100_witness :
  (List.length
     (match result_of (getTransactions (Examples.busy 150) Examples.wallet 0%nat) with
      | Normal out => out
      | Throw _ => []
      end) <= 100)%nat.
Proof.
  destruct (getTransactions (Examples.busy 150) Examples.wallet 0%nat)
    as [[[out|e] w'] tr] eqn:E; simpl.
  - exact (proj1 (output_capped_at_100 (Examples.busy 150) Examples.wallet 0%nat)
             out w' tr E).
  - apply Nat.le_0_l.
Defined.

(** C9.  After a successful listing the array [getTransactions] returns is
    the specified output: the records of the listed signatures that yield
    one, in listing order, cut at one hundred.  In the normalizing revision
    the signatures carried by the records are, in order, among the listed
    ones. *)
Theorem output_follows_listing
  (P : Platform) (walletAddress : string) (pk : PublicKey P)
  (sigs : list SignatureInfo) (w w1 : World P)
  (Hpk : PublicKey_new P walletAddress = Normal pk)
  (L : getSignaturesForAddress P pk w = (Normal sigs, w1)) :
  result_of (getTransactions P walletAddress w)
  = Normal (specified_output P (normalize P walletAddress) sigs w1)
  /\ result_of (getTransactions_trimming P walletAddress w)
     = Normal (specified_output P trim sigs w1)
  /\ Subseq
       (map transaction_hash
          (specified_output P (normalize P walletAddress) sigs w1))
       (map signature sigs).
Proof.
  rewrite (getTransactions_valid P walletAddress pk w Hpk).
  rewrite (getTransactions_trimming_valid P walletAddress pk w Hpk).
  rewrite L, !result_of_after.
  destruct (forSignatures_normal P (normalize P walletAddress) sigs w1)
    as (o & v & t & E & _ & ->).
  destruct (forSignatures_normal P trim sigs w1)
    as (o' & v' & t' & E' & _ & ->).
  rewrite E, E'. repeat split.
  unfold specified_output. rewrite <- firstn_map.
  apply Subseq_firstn, contributions_follow_listing.
Qed.

Lemma output_follows_listing_witness :
  (PublicKey_new Examples.mixed Examples.wallet = Normal Examples.wallet
   /\ getSignaturesForAddress Examples.mixed Examples.wallet 0%nat
      = (Normal Examples.mixedSignatures, 1%nat))
  /\ result_of (getTransactions Examples.mixed Examples.wallet 0%nat)
     = Normal (specified_output Examples.mixed
                 (normalize Examples.mixed Examples.wallet)
                 Examples.mixedSignatures 1%nat).
Proof.
  split; [split; reflexivity|].
  apply (output_follows_listing Examples.mixed Examples.wallet Examples.wallet
           Examples.mixedSignatures 0%nat 1%nat); reflexivity.
Defined.

(** ** The program on the example platforms *)

Example mixed_output :
  option_map (map transaction_hash)
    (match result_of (getTransactions Examples.mixed Examples.wallet 0%nat) with
     | Normal out => Some out
     | Throw _ => None
     end)
  = Some ["a"; "b"; "c"]%string.
Proof. vm_compute. reflexivity. Qed.

Example mixed_requests :
  fetches (trace_of (getTransactions Examples.mixed Examples.wallet 0%nat))
  = ["a"; "missing"; "b"; "broken"; "bare"]%string
      ++ repeat "stuck"%string 10 ++ ["c"%string].
Proof. vm_compute. reflexivity. Qed.

Example busy_stops_at_100 :
  fetches (trace_of (getTransactions (Examples.busy 150) Examples.wallet 0%nat))
  = map signature (Examples.numbered 100).
Proof. vm_compute. reflexivity. Qed.

Example toISOString_leap_day :
  Scripted.toISOString 951782400000 = Normal "2000-02-29T00:00:00.000Z"%string.
Proof. vm_compute. reflexivity. Qed.

(** * Further properties of the code *)

(** ** The fetcher on an arbitrary node *)

Lemma fetches_app {PK} (a b : list (Event PK)) :
  fetches (a ++ b) = fetches a ++ fetches b.
Proof.
  induction a as [|[] a IH]; simpl; rewrite ?IH; reflexivity.
Qed.

Lemma sleeps_app {PK} (a b : list (Event PK)) :
  sleeps (a ++ b) = sleeps a ++ sleeps b.
Proof.
  induction a as [|[] a IH]; simpl; rewrite ?IH; reflexivity.
Qed.

Lemma listings_app {PK} (a b : list (Event PK)) :
  listings (a ++ b) = listings a ++ listings b.
Proof.
  induction a as [|[] a IH]; simpl; rewrite ?IH; reflexivity.
Qed.

Lemma fetches_retryBlocks {PK} (sig : string) (errors : list JsError) :
  forall from,
    fetches (@retryBlocks PK sig from errors)
    = repeat sig (List.length errors).
Proof.
  induction errors as [|e rest IH]; intros from; simpl; [reflexivity|].
  rewrite IH. reflexivity.
Qed.

Lemma sleeps_retryBlocks {PK} (sig : string) (errors : list JsError) :
  forall from,
    sleeps (@retryBlocks PK sig from errors)
    = map backoffDelay (attemptsFrom from (List.length errors)).
Proof.
  induction errors as [|e rest IH]; intros from; simpl; [reflexivity|].
  rewrite IH. reflexivity.
Qed.

Lemma listings_retryBlocks {PK} (sig : string) (errors : list JsError) :
  forall from, listings (@retryBlocks PK sig from errors) = [].
Proof.
  induction errors as [|e rest IH]; intros from; simpl; [reflexivity|].
  apply IH.
Qed.

Lemma asks_retryBlocks {PK} (sig : string) (errors : list JsError) :
  forall from, Forall (asks_version_0 sig) (@retryBlocks PK sig from errors).
Proof.
  induction errors as [|e rest IH]; intros from; simpl.
  - constructor.
  - repeat (constructor; simpl; auto).
Qed.

Lemma fetch_shape (P : Platform) (sig : string) (attempt : Z) (w : World P) :
  exists errors : list JsError, fetcher_run P sig attempt w errors.
Proof.
  unfold fetcher_run.
  remember (attemptsLeft attempt) as k eqn:Hk.
  revert attempt w Hk. induction k as [|k IH]; intros attempt w Hk.
  - exists []. split; [constructor|]. left.
    rewrite fetch_exhausted by (unfold attemptsLeft in Hk; lia).
    repeat split.
  - assert (Hle : attempt <= 10) by (unfold attemptsLeft in Hk; lia).
    destruct (getParsedTransaction P sig 0 w) as [[tx|e] w1] eqn:E.
    + exists []. split; [constructor|]. right.
      rewrite (fetch_answered P sig attempt w w1 tx Hle E).
      split; [simpl; lia|]. split; [reflexivity|]. left. now exists tx.
    + destruct (transient e) eqn:T.
      * destruct (IH (attempt + 1) w1) as (errors & Hall & Hend).
        { unfold attemptsLeft in *. lia. }
        exists (e :: errors). split; [constructor; assumption|].
        rewrite (fetch_retry P sig attempt w w1 e Hle E T).
        rewrite trace_of_after, result_of_after.
        destruct Hend as [(Hlen & Hr & Ht)|(Hlen & Ht & Hr)].
        -- left. split; [simpl; lia|]. split; [exact Hr|].
           rewrite Ht. reflexivity.
        -- right. split; [simpl; lia|]. split; [|exact Hr].
           rewrite Ht. reflexivity.
      * exists []. split; [constructor|]. right.
        rewrite (fetch_fatal P sig attempt w w1 e Hle E T).
        split; [simpl; lia|]. split; [reflexivity|]. right. now exists e.
Qed.

(** X1.  Whatever the node answers, the trace of a call of the fetcher is a
    run of failed attempts, each of them a request, a console line that
    announces the retry and a sleep, all on transient errors and no more of
    them than attempts are left, followed either by the line of exhaustion
    (then all the attempts were used and the result is [null]) or by one
    last request, which was answered or failed with an error that is not
    transient and is thrown. *)
Theorem fetcher_trace_shape
  (P : Platform) (sig : string) (attempt : Z) (w : World P) :
  exists errors : list JsError,
    fetcher_run P sig attempt w errors
    /\ (List.length errors <= attemptsLeft attempt)%nat
    /\ fetches (retryBlocks (PK := PublicKey P) sig attempt errors)
       = repeat sig (List.length errors)
    /\ sleeps (retryBlocks (PK := PublicKey P) sig attempt errors)
       = map backoffDelay (attemptsFrom attempt (List.length errors)).
Proof.
  destruct (fetch_shape P sig attempt w) as [errors H].
  exists errors. split; [exact H|]. split.
  - destruct H as (_ & [(Hlen & _)|(Hlen & _)]); lia.
  - split; [apply fetches_retryBlocks | apply sleeps_retryBlocks].
Qed.

Lemma length_attemptsFrom (n : nat) :
  forall from, List.length (attemptsFrom from n) = n.
Proof. induction n as [|n IH]; intros from; simpl; auto. Qed.

Lemma attemptsLeft_first : attemptsLeft 1 = 10%nat.
Proof. reflexivity. Qed.

Lemma schedule_prefix (n : nat) :
  (n <= 10)%nat ->
  map backoffDelay (attemptsFrom 1 n) = firstn n schedule
  /\ total (map backoffDelay (attemptsFrom 1 n)) <= 95500.
Proof.
  intros H.
  do 11 (destruct n as [|n]; [split; [reflexivity | vm_compute; discriminate]|]).
  lia.
Qed.

(** X2.  One call of the fetcher sends at most as many requests as attempts
    are left, so at most ten when it is entered with [attempt = 1]; it
    never sends none; all of its requests are for the signature it was
    given, with [maxSupportedTransactionVersion: 0]; and it never lists
    signatures. *)
Theorem fetcher_request_budget
  (P : Platform) (sig : string) (attempt : Z) (w : World P) :
  (List.length (fetches (trace_of (fetchTransactionWithBackoff P sig attempt w)))
   <= attemptsLeft attempt)%nat
  /\ (List.length (fetches (trace_of (fetchTransactionWithBackoff P sig 1 w)))
      <= 10)%nat
  /\ (1 <= List.length
            (fetches (trace_of (fetchTransactionWithBackoff P sig 1 w))))%nat
  /\ Forall (asks_version_0 sig)
       (trace_of (fetchTransactionWithBackoff P sig attempt w))
  /\ listings (trace_of (fetchTransactionWithBackoff P sig attempt w)) = [].
Proof.
  assert (Hbudget : forall a,
    (List.length (fetches (trace_of (fetchTransactionWithBackoff P sig a w)))
     <= attemptsLeft a)%nat).
  { intros a.
    destruct (fetch_shape P sig a w)
      as (errors & _ & [(Hlen & _ & Ht)|(Hlen & Ht & _)]);
      rewrite Ht, fetches_app, fetches_retryBlocks, length_app, repeat_length;
      simpl; lia. }
  split; [apply Hbudget|]. split; [apply (Hbudget 1)|].
  split; [|split].
  - destruct (fetch_shape P sig 1 w)
      as (errors & _ & [(Hlen & _ & Ht)|(Hlen & Ht & _)]);
      rewrite Ht, fetches_app, fetches_retryBlocks, length_app, repeat_length;
      simpl; rewrite ?attemptsLeft_first in Hlen; lia.
  - destruct (fetch_shape P sig attempt w)
      as (errors & _ & [(_ & _ & Ht)|(_ & Ht & _)]);
      rewrite Ht; apply Forall_app; split;
      try apply asks_retryBlocks; repeat constructor.
  - destruct (fetch_shape P sig attempt w)
      as (errors & _ & [(_ & _ & Ht)|(_ & Ht & _)]);
      rewrite Ht, listings_app, listings_retryBlocks; reflexivity.
Qed.

(** X3.  The sleeps of one call of the fetcher entered with [attempt = 1]
    are an initial segment of the schedule 500, 1000, 2000, 4000, 8000,
    16000 (five times): never out of order, never more than ten, and never
    more than 95500 ms in all. *)
Theorem fetcher_sleeps_follow_schedule
  (P : Platform) (sig : string) (w : World P) :
  sleeps (trace_of (fetchTransactionWithBackoff P sig 1 w))
  = firstn
      (List.length (sleeps (trace_of (fetchTransactionWithBackoff P sig 1 w))))
      schedule
  /\ (List.length (sleeps (trace_of (fetchTransactionWithBackoff P sig 1 w)))
      <= 10)%nat
  /\ total (sleeps (trace_of (fetchTransactionWithBackoff P sig 1 w)))
     <= 95500.
Proof.
  assert (H : exists n,
    (n <= 10)%nat
    /\ sleeps (trace_of (fetchTransactionWithBackoff P sig 1 w))
       = map backoffDelay (attemptsFrom 1 n)).
  { destruct (fetch_shape P sig 1 w)
      as (errors & _ & [(Hlen & _ & Ht)|(Hlen & Ht & _)]);
      exists (List.length errors);
      rewrite attemptsLeft_first in Hlen;
      (split; [lia|]);
      rewrite Ht, sleeps_app, sleeps_retryBlocks; simpl;
      apply app_nil_r. }
  destruct H as (n & Hn & ->).
  destruct (schedule_prefix n Hn) as [Hpre Htot].
  assert (Hlen : List.length (map backoffDelay (attemptsFrom 1 n)) = n).
  { rewrite Hpre, length_firstn. unfold schedule. simpl. lia. }
  rewrite Hlen. split; [exact Hpre|]. split; [lia | exact Htot].
Qed.

(** X4.  An error the fetcher throws is never a transient one, and both a
    thrown error and a fetched transaction come from a request that was
    not followed by a sleep: the fetcher made one more request than it
    slept.  When it slept ten times it returns [null]. *)
Theorem fetcher_outcomes
  (P : Platform) (sig : string) (w : World P) :
  (forall e,
      result_of (fetchTransactionWithBackoff P sig 1 w) = Throw e ->
      transient e = false
      /\ List.length (fetches (trace_of (fetchTransactionWithBackoff P sig 1 w)))
         = S (List.length
                (sleeps (trace_of (fetchTransactionWithBackoff P sig 1 w)))))
  /\ (forall tx,
        result_of (fetchTransactionWithBackoff P sig 1 w) = Normal (Some tx) ->
        List.length (fetches (trace_of (fetchTransactionWithBackoff P sig 1 w)))
        = S (List.length
               (sleeps (trace_of (fetchTransactionWithBackoff P sig 1 w)))))
  /\ (List.length (sleeps (trace_of (fetchTransactionWithBackoff P sig 1 w)))
      = 10%nat ->
      result_of (fetchTransactionWithBackoff P sig 1 w) = Normal None).
Proof.
  destruct (fetch_shape P sig 1 w)
    as (errors & _ & [(Hlen & Hr & Ht)|(Hlen & Ht & Hr)]);
    rewrite Ht, fetches_app, sleeps_app, fetches_retryBlocks,
      sleeps_retryBlocks, !length_app, repeat_length, length_map,
      length_attemptsFrom; simpl.
  - rewrite Hr. repeat split; discriminate.
  - rewrite attemptsLeft_first in Hlen.
    split; [|split].
    + intros e He. destruct Hr as [[tx Hr]|(e' & Hr & T)]; rewrite Hr in He.
      * discriminate.
      * injection He as <-. split; [exact T | lia].
    + intros tx _. lia.
    + intros H. lia.
Qed.

(** ** The normalizer *)

Section Normalizer.

Context (P : Platform).

Lemma timestampOf_normal (tx : RawTransaction) :
  (exists ts, timestampOf P tx = Normal ts)
  <-> (forall T, blockTime tx = Some T -> T <> 0 ->
                 exists iso, Date_toISOString P (T * 1000) = Normal iso).
Proof.
  unfold timestampOf. destruct (blockTime tx) as [t|].
  - destruct (Z.eqb_spec t 0) as [Ht|Ht].
    + split; [|eauto]. intros _ T [= <-] HT. contradiction.
    + destruct (Date_toISOString P (t * 1000)) as [iso|e] eqn:D.
      * split; [|eauto]. intros _ T [= <-] _. eauto.
      * split; [intros [ts Hts]; discriminate|].
        intros H. destruct (H t eq_refl Ht) as [iso Hiso]. congruence.
  - split; [|eauto]. intros _ T HT. discriminate.
Qed.

(** The record the normalizer builds, read off its inputs. *)
Lemma normalize_inversion (walletAddress : string) (tx : RawTransaction)
  (s : SignatureInfo) (r : SimplifiedTransaction) :
  normalize P walletAddress tx s = Normal r ->
  exists m pre post ts,
    meta tx = Some m
    /\ preTokenBalances m = Some pre
    /\ postTokenBalances m = Some post
    /\ timestampOf P tx = Normal ts
    /\ r = {| uuid := transactionHash m;
              network := "Solana";
              st_fee := number_or (fee m) 0;
              compute_units_consumed := number_or (computeUnitsConsumed m) 0;
              timestamp := ts;
              st_type := typeOf tx;
              wallet_address := walletAddress;
              transaction_hash := signature s;
              token :=
                {| token_uuid :=
                     match hd_error pre with
                     | Some b =>
                         match truthy_string (mint b) with
                         | Some a => MintAddress a
                         | None => EmptyObject
                         end
                     | None => EmptyObject
                     end;
                   token_network := "Solana";
                   contract_address :=
                     truthy_string (mint (first_or_empty pre));
                   token_name := "solana";
                   symbol := "sol";
                   token_decimals :=
                     number_or
                       (match uiTokenAmount (first_or_empty pre) with
                        | Some a => decimals a
                        | None => None
                        end) 0;
                   display_decimals := 2 |} |}.
Proof.
  unfold normalize. intros H.
  destruct (meta tx) as [m|]; [|discriminate].
  destruct (preTokenBalances m) as [pre|] eqn:Hpre; [|discriminate].
  destruct (postTokenBalances m) as [post|] eqn:Hpost; [|discriminate].
  destruct (timestampOf P tx) as [ts|]; [|discriminate].
  injection H as <-. exists m, pre, post, ts.
  split; [reflexivity|]. split; [exact Hpre|]. split; [exact Hpost|].
  split; reflexivity.
Qed.

Lemma truthy_string_nonempty (x : option string) :
  truthy_string x <> Some ""%string.
Proof. destruct x as [[|c s]|]; simpl; congruence. Qed.


End Normalizer.

(** X5.  The normalizer builds a record exactly when the transaction has a
    meta, the meta has both its pre and its post token balance lists (the
    post list is read although nothing of it reaches the record), and the
    block time, when there is one other than zero, can be rendered;
    otherwise it throws, and the loop drops the transaction. *)
Theorem normalize_succeeds_iff
  (P : Platform) (walletAddress : string) (tx : RawTransaction)
  (s : SignatureInfo) :
  (exists r, normalize P walletAddress tx s = Normal r)
  <-> normalizable P tx.
Proof.
  unfold normalizable. rewrite <- timestampOf_normal. split.
  - intros [r H].
    destruct (normalize_inversion P walletAddress tx s r H)
      as (m & pre & post & ts & Hm & Hpre & Hpost & Hts & _).
    split; [exists m, pre, post; auto | eauto].
  - intros [(m & pre & post & Hm & Hpre & Hpost) [ts Hts]].
    unfold normalize. rewrite Hm, Hpre, Hpost, Hts. eauto.
Qed.

(** X6.  The type of a normalized record is never empty: it is the parsed
    type of the first instruction when that is a non-empty string, and the
    literal "unknown" in every other case (no instruction, an instruction
    that is not parsed, no type, an empty type). *)
Theorem record_type_is_never_empty
  (P : Platform) (walletAddress : string) (tx : RawTransaction)
  (s : SignatureInfo) (r : SimplifiedTransaction)
  (H : normalize P walletAddress tx s = Normal r) :
  st_type r <> ""%string
  /\ ((exists i p,
          hd_error (instructions (message_ (transaction tx))) = Some i
          /\ parsed i = Some p
          /\ type p = Some (st_type r))
      \/ (st_type r = "unknown"%string
          /\ forall i p t,
               hd_error (instructions (message_ (transaction tx))) = Some i ->
               parsed i = Some p -> type p = Some t -> t = ""%string)).
Proof.
  destruct (normalize_inversion P walletAddress tx s r H)
    as (m & pre & post & ts & _ & _ & _ & _ & ->).
  simpl. unfold typeOf.
  destruct (hd_error (instructions (message_ (transaction tx))))
    as [i|] eqn:Hi.
  - destruct (parsed i) as [p|] eqn:Hp.
    + destruct (type p) as [[|c t]|] eqn:Ht; simpl.
      * split; [discriminate|]. right. split; [reflexivity|].
        intros i' p' t' [= <-] Hp' Ht'. congruence.
      * split; [discriminate|]. left. exists i, p. auto.
      * split; [discriminate|]. right. split; [reflexivity|].
        intros i' p' t' [= <-] Hp' Ht'. congruence.
    + split; [discriminate|]. right. split; [reflexivity|].
      intros i' p' t' [= <-] Hp'. congruence.
  - split; [discriminate|]. right. split; [reflexivity|].
    intros i' p' t' Hi'. discriminate.
Qed.

Lemma record_type_is_never_empty_witness :
  exists r,
    normalize Examples.mixed Examples.wallet Examples.sampleTransaction
      (Examples.sigOf "a") = Normal r
    /\ st_type r <> ""%string.
Proof.
  destruct (normalize Examples.mixed Examples.wallet
              Examples.sampleTransaction (Examples.sigOf "a"))
    as [r|e] eqn:N; [|discriminate].
  exists r. split; [reflexivity|].
  apply (record_type_is_never_empty Examples.mixed Examples.wallet
           Examples.sampleTransaction (Examples.sigOf "a") r N).
Defined.

(** X7.  The two fields of the token of a record that come from the mint of
    the first pre-transaction token balance agree: the contract address is
    [null] exactly when the token uuid is the empty object, it is a mint
    exactly when the uuid is that mint, and it is never the empty string.
    Without a first balance the contract address is [null] and the
    decimals are zero. *)
Theorem record_token_fields_agree
  (P : Platform) (walletAddress : string) (tx : RawTransaction)
  (s : SignatureInfo) (r : SimplifiedTransaction)
  (H : normalize P walletAddress tx s = Normal r) :
  (contract_address (token r) = None
   <-> token_uuid (token r) = EmptyObject)
  /\ (forall a,
        contract_address (token r) = Some a
        <-> token_uuid (token r) = MintAddress a)
  /\ contract_address (token r) <> Some ""%string
  /\ (forall m,
        meta tx = Some m -> preTokenBalances m = Some [] ->
        contract_address (token r) = None
        /\ token_decimals (token r) = 0).
Proof.
  destruct (normalize_inversion P walletAddress tx s r H)
    as (m & pre & post & ts & Hm & Hpre & _ & _ & ->).
  simpl. unfold first_or_empty.
  split; [|split; [|split]].
  - destruct (hd_error pre) as [b|]; simpl; [|tauto].
    destruct (truthy_string (mint b)); split; congruence.
  - intros a. destruct (hd_error pre) as [b|]; simpl.
    + destruct (truthy_string (mint b)); split; congruence.
    + split; discriminate.
  - apply truthy_string_nonempty.
  - intros m' Hm' Hpre'. rewrite Hm in Hm'. injection Hm' as <-.
    rewrite Hpre in Hpre'. injection Hpre' as ->. split; reflexivity.
Qed.

Lemma record_token_fields_agree_witness :
  exists r,
    normalize Examples.mixed Examples.wallet Examples.sampleTransaction
      (Examples.sigOf "a") = Normal r
    /\ (contract_address (token r)
        = Some "EPjFWdd5AufqSSqeM2qN1xzybapC8G4wEGGkZwyTDt1v"%string
        <-> token_uuid (token r)
            = MintAddress "EPjFWdd5AufqSSqeM2qN1xzybapC8G4wEGGkZwyTDt1v").
Proof.
  destruct (normalize Examples.mixed Examples.wallet
              Examples.sampleTransaction (Examples.sigOf "a"))
    as [r|e] eqn:N; [|discriminate].
  exists r. split; [reflexivity|].
  apply (record_token_fields_agree Examples.mixed Examples.wallet
           Examples.sampleTransaction (Examples.sigOf "a") r N).
Defined.



(** ** The requests of the loop *)

Lemma total_app (a b : list Z) : total (a ++ b) = total a + total b.
Proof.
  unfold total. induction a as [|x a IH]; simpl; [reflexivity|].
  rewrite IH. lia.
Qed.

(** The requests and sleeps of one call of the fetcher from the loop. *)
Lemma fetch_counts (P : Platform) (sig : string) (w : World P) :
  exists n : nat,
    (1 <= n <= 10)%nat
    /\ fetches (trace_of (fetchTransactionWithBackoff P sig 1 w))
       = repeat sig n
    /\ listings (trace_of (fetchTransactionWithBackoff P sig 1 w)) = []
    /\ total (sleeps (trace_of (fetchTransactionWithBackoff P sig 1 w)))
       <= 95500.
Proof.
  destruct (fetch_shape P sig 1 w)
    as (errors & _ & [(Hlen & _ & Ht)|(Hlen & Ht & _)]);
    rewrite attemptsLeft_first in Hlen; rewrite Ht;
    rewrite fetches_app, listings_app, sleeps_app, fetches_retryBlocks,
      listings_retryBlocks, sleeps_retryBlocks; simpl; rewrite !app_nil_r.
  - exists (List.length errors). split; [lia|]. split; [reflexivity|].
    split; [reflexivity|]. apply schedule_prefix. lia.
  - exists (S (List.length errors)). split; [lia|].
    split; [symmetry; apply (repeat_cons (List.length errors) sig)|].
    split; [reflexivity|]. apply schedule_prefix. lia.
Qed.

Section LoopRequests.

Context (P : Platform) {R : Type}.
Variable build : RawTransaction -> SignatureInfo -> Completion R.

(** An iteration adds to the trace of its fetch at most the console line of
    the [catch]. *)
Lemma iteration_trace (s : SignatureInfo) (txs : list R) (w : World P) :
  exists tail,
    trace_of (iteration P build s txs w)
    = trace_of (fetchTransactionWithBackoff P (signature s) 1 w) ++ tail
    /\ fetches tail = [] /\ sleeps tail = [] /\ listings tail = [].
Proof.
  rewrite iteration_unfold.
  destruct (fetchTransactionWithBackoff P (signature s) 1 w)
    as [[[[tx|]|e] w1] tr]; [destruct (build tx s) as [record|e]| |];
    simpl;
    try (exists []; rewrite app_nil_r; repeat split; reflexivity);
    eexists; repeat split.
Qed.

(** The loop stops before the end of the listing only with a full array. *)
Lemma iteration_break (s : SignatureInfo) (txs out : list R)
  (w w1 : World P) (tr : list (Event (PublicKey P))) :
  iteration P build s txs w = (Normal (out, Break), w1, tr) ->
  (100 <= List.length out)%nat.
Proof.
  rewrite iteration_unfold.
  destruct (fetchTransactionWithBackoff P (signature s) 1 w)
    as [[[[tx|]|e] w'] tr']; [destruct (build tx s) as [record|e]| |];
    try discriminate.
  destruct (100 <=? List.length (txs ++ [record]))%nat eqn:Cap;
    [|discriminate].
  intros [= <- _ _]. apply Nat.leb_le, Cap.
Qed.

Lemma forSignatures_requests (sigs : list SignatureInfo) :
  forall (txs : list R) (w : World P),
    listings (trace_of (forSignatures P build sigs txs w)) = []
    /\ (List.length (fetches (trace_of (forSignatures P build sigs txs w)))
        <= 10 * List.length sigs)%nat
    /\ incl (fetches (trace_of (forSignatures P build sigs txs w)))
            (map signature sigs)
    /\ total (sleeps (trace_of (forSignatures P build sigs txs w)))
       <= 95500 * Z.of_nat (List.length sigs).
Proof.
  induction sigs as [|s rest IH]; intros txs w.
  - cbn. repeat split; [lia | apply incl_nil_l | lia].
  - rewrite forSignatures_cons.
    destruct (iteration_trace s txs w) as (tail & Ht & Hf & Hs & Hl).
    destruct (fetch_counts P (signature s) w) as (n & Hn & Fn & Ln & Sn).
    assert (Hin : incl (repeat (signature s) n)
                       (map signature (s :: rest))).
    { intros x Hx. apply repeat_spec in Hx. subst x. now left. }
    assert (Hhere :
      listings (trace_of (iteration P build s txs w)) = []
      /\ List.length (fetches (trace_of (iteration P build s txs w))) = n
      /\ fetches (trace_of (iteration P build s txs w))
         = repeat (signature s) n
      /\ total (sleeps (trace_of (iteration P build s txs w))) <= 95500).
    { rewrite Ht, listings_app, fetches_app, sleeps_app, Hf, Hs, Hl, Ln, Fn,
        !app_nil_r, repeat_length. auto. }
    destruct Hhere as (HL & HN & HF & HS).
    destruct (iteration P build s txs w) as [[[[mid []]|e] w1] t];
      unfold trace_of in HL, HN, HF, HS; cbn [snd] in HL, HN, HF, HS.
    + destruct (IH mid w1) as (IL & IF & II & IS).
      rewrite trace_of_after, listings_app, fetches_app, sleeps_app,
        total_app, length_app, HL, HN, HF, IL.
      cbn [List.length]. repeat split; [lia | | lia].
      apply incl_app; [exact Hin | apply incl_tl, II].
    + change (trace_of (Normal mid, w1, t)) with t.
      rewrite HL, HN, HF. cbn [List.length].
      repeat split; [lia | exact Hin | lia].
    + change (trace_of (@Throw (list R) e, w1, t)) with t.
      rewrite HL, HN, HF. cbn [List.length].
      repeat split; [lia | exact Hin | lia].
Qed.

(** When the array stays below one hundred records, no listed signature
    was left out: each of them was requested. *)
Lemma forSignatures_visits_all (sigs : list SignatureInfo) :
  forall (txs out : list R) (w : World P),
    result_of (forSignatures P build sigs txs w) = Normal out ->
    (List.length out < 100)%nat ->
    incl (map signature sigs)
         (fetches (trace_of (forSignatures P build sigs txs w))).
Proof.
  induction sigs as [|s rest IH]; intros txs out w Hr Hlen.
  - apply incl_nil_l.
  - rewrite forSignatures_cons in *.
    destruct (iteration_trace s txs w) as (tail & Ht & _).
    destruct (fetch_counts P (signature s) w) as (n & Hn & Fn & _).
    assert (Hs : In (signature s)
                    (fetches (trace_of (iteration P build s txs w)))).
    { rewrite Ht, fetches_app, Fn. apply in_or_app. left.
      destruct n; [lia | now left]. }
    destruct (iteration P build s txs w) as [[[[mid []]|e] w1] t] eqn:It;
      unfold trace_of in Hs; cbn [snd] in Hs.
    + rewrite result_of_after in Hr. rewrite trace_of_after, fetches_app.
      specialize (IH mid out w1 Hr Hlen).
      intros x [<-|Hx]; apply in_or_app; [now left | right; apply IH, Hx].
    + apply iteration_break in It.
      change (Normal mid = Normal out) in Hr. injection Hr as <-. lia.
    + discriminate.
Qed.

(** The events of one iteration are the block of its entry. *)
Lemma iteration_block (s : SignatureInfo) (txs : list R) (w : World P) :
  entry_block s (trace_of (iteration P build s txs w)).
Proof.
  destruct (iteration_trace s txs w) as (tail & Ht & Hf & Hs & Hl).
  destruct (fetch_counts P (signature s) w) as (n & Hn & Fn & Ln & Sn).
  unfold entry_block.
  rewrite Ht, listings_app, fetches_app, sleeps_app, Hf, Hs, Hl, Ln, Fn,
    !app_nil_r.
  split; [exists n; auto | auto].
Qed.

Lemma forSignatures_visits (sigs : list SignatureInfo) :
  forall (txs : list R) (w : World P),
    visits sigs (trace_of (forSignatures P build sigs txs w)).
Proof.
  induction sigs as [|s rest IH]; intros txs w.
  - apply visits_done.
  - rewrite forSignatures_cons.
    pose proof (iteration_block s txs w) as Hb.
    destruct (iteration P build s txs w) as [[[[mid []]|e] w1] t];
      unfold trace_of in Hb; cbn [snd] in Hb.
    + rewrite trace_of_after. apply visits_entry; [exact Hb | apply IH].
    + unfold trace_of. cbn [snd]. rewrite <- (app_nil_r t).
      apply visits_entry; [exact Hb | apply visits_done].
    + unfold trace_of. cbn [snd]. rewrite <- (app_nil_r t).
      apply visits_entry; [exact Hb | apply visits_done].
Qed.

End LoopRequests.

(** ** The whole operation, further *)

Lemma within_budget_after {PK} (pk : PK) (sigs : list SignatureInfo)
  (tr : list (Event PK)) :
  visits sigs tr ->
  listings tr = [] ->
  (List.length (fetches tr) <= 10 * List.length sigs)%nat ->
  incl (fetches tr) (map signature sigs) ->
  total (sleeps tr) <= 95500 * Z.of_nat (List.length sigs) ->
  within_budget pk sigs (Rpc_getSignaturesForAddress pk :: tr).
Proof.
  intros HV HL HF HI HS. unfold within_budget.
  cbn [hd_error listings fetches sleeps].
  rewrite HL. repeat split; auto. exists tr. auto.
Qed.

(** X9.  After a successful listing, [getTransactions] (either revision)
    sends the listing request first and only once; the rest of its trace
    is one block for each listed entry, in listing order and up to the
    entry at which the loop ends, and each block holds between one and ten
    detail requests, all for the signature of that entry, and at most
    95500 ms of sleep.  So details are requested only for listed
    signatures, at most ten times the length of the listing in all. *)
Theorem operation_request_budget
  (P : Platform) (walletAddress : string) (pk : PublicKey P)
  (sigs : list SignatureInfo) (w w1 : World P)
  (Hpk : PublicKey_new P walletAddress = Normal pk)
  (L : getSignaturesForAddress P pk w = (Normal sigs, w1)) :
  within_budget pk sigs (trace_of (getTransactions P walletAddress w))
  /\ within_budget pk sigs
       (trace_of (getTransactions_trimming P walletAddress w)).
Proof.
  rewrite (getTransactions_valid P walletAddress pk w Hpk).
  rewrite (getTransactions_trimming_valid P walletAddress pk w Hpk).
  rewrite L, !trace_of_after.
  split; apply within_budget_after;
    solve [apply forSignatures_visits | apply forSignatures_requests].
Qed.

Lemma operation_request_budget_witness :
  (PublicKey_new Examples.mixed Examples.wallet = Normal Examples.wallet
   /\ getSignaturesForAddress Examples.mixed Examples.wallet 0%nat
      = (Normal Examples.mixedSignatures, 1%nat))
  /\ within_budget Examples.wallet Examples.mixedSignatures
       (trace_of (getTransactions Examples.mixed Examples.wallet 0%nat)).
Proof.
  split; [split; reflexivity|].
  apply (operation_request_budget Examples.mixed Examples.wallet
           Examples.wallet Examples.mixedSignatures 0%nat 1%nat);
    reflexivity.
Defined.

(** Twenty requests for the first of two listed signatures and none for
    the second stay within ten times the length of the listing, and are
    refused all the same: no entry gets more than ten. *)
Example budget_is_per_entry :
  ~ within_budget "key"%string [Examples.sigOf "a"; Examples.sigOf "b"]
      (Rpc_getSignaturesForAddress "key"%string
         :: repeat (Rpc_getParsedTransaction "a" 0) 20).
Proof.
  intros (_ & _ & (tr' & E & V) & _). injection E as <-.
  inversion V as [sigs Hnil|s rest block tr Hb Hv Hs Ht].
  destruct Hb as ((n & Hn & Fn) & _).
  apply (f_equal fetches) in Ht. rewrite fetches_app, Fn in Ht.
  inversion Hv as [sigs' Hnil|s' rest' block' tr2 Hb' Hv' Hs' Ht'].
  - subst tr. rewrite app_nil_r in Ht.
    apply (f_equal (@List.length string)) in Ht.
    rewrite repeat_length in Ht. simpl in Ht. lia.
  - destruct Hb' as ((m & Hm & Fm) & _).
    subst tr. rewrite fetches_app, Fm in Ht.
    assert (Hin : In "b"%string
                    (repeat (signature (Examples.sigOf "a")) n
                       ++ repeat (signature (Examples.sigOf "b")) m
                       ++ fetches tr2)).
    { apply in_or_app. right. apply in_or_app. left.
      destruct m; [lia | now left]. }
    rewrite Ht in Hin.
    simpl in Hin. intuition discriminate.
Qed.

(** X10.  The loop leaves the listing early for no other reason than a
    full array: when [getTransactions] (either revision) returns fewer than
    one hundred records, the details of every listed signature were
    requested. *)
Theorem short_output_visits_every_signature
  (P : Platform) (walletAddress : string) (pk : PublicKey P)
  (sigs : list SignatureInfo) (w w1 : World P)
  (Hpk : PublicKey_new P walletAddress = Normal pk)
  (L : getSignaturesForAddress P pk w = (Normal sigs, w1)) :
  (forall out,
      result_of (getTransactions P walletAddress w) = Normal out ->
      (List.length out < 100)%nat ->
      incl (map signature sigs)
           (fetches (trace_of (getTransactions P walletAddress w))))
  /\ (forall out,
        result_of (getTransactions_trimming P walletAddress w) = Normal out ->
        (List.length out < 100)%nat ->
        incl (map signature sigs)
             (fetches (trace_of (getTransactions_trimming P walletAddress w)))).
Proof.
  rewrite (getTransactions_valid P walletAddress pk w Hpk).
  rewrite (getTransactions_trimming_valid P walletAddress pk w Hpk).
  rewrite L, !trace_of_after, !result_of_after.
  split; intros out Hr Hlen; cbn [app fetches];
    apply (forSignatures_visits_all P _ sigs [] out w1 Hr Hlen).
Qed.

Lemma short_output_visits_every_signature_witness :
  (PublicKey_new Examples.mixed Examples.wallet = Normal Examples.wallet
   /\ getSignaturesForAddress Examples.mixed Examples.wallet 0%nat
      = (Normal Examples.mixedSignatures, 1%nat))
  /\ incl (map signature Examples.mixedSignatures)
          (fetches (trace_of
             (getTransactions Examples.mixed Examples.wallet 0%nat))).
Proof.
  split; [split; reflexivity|].
  destruct (result_of (getTransactions Examples.mixed Examples.wallet 0%nat))
    as [out|e] eqn:Hr; [|discriminate].
  apply (proj1 (short_output_visits_every_signature Examples.mixed
                  Examples.wallet Examples.wallet Examples.mixedSignatures
                  0%nat 1%nat eq_refl eq_refl) out Hr).
  vm_compute in Hr. injection Hr as <-. vm_compute. lia.
Defined.

(** X11.  [getTransactions] throws in two cases only: the address is
    rejected (error "Invalid wallet address") or the listing request fails
    (error "Failed to fetch signatures").  No error of a detail request or
    of the normalizer leaves it.  The trimming revision throws the error of
    the [PublicKey] constructor in the first case. *)
Theorem operation_errors
  (P : Platform) (walletAddress : string) (w : World P) :
  ((exists e, result_of (getTransactions P walletAddress w) = Throw e)
   <-> isValidSolanaPublicKey P walletAddress = false
       \/ exists pk e0 w1,
            PublicKey_new P walletAddress = Normal pk
            /\ getSignaturesForAddress P pk w = (Throw e0, w1))
  /\ (forall e,
        result_of (getTransactions P walletAddress w) = Throw e ->
        e = mkError "Error" "Invalid wallet address"
        \/ e = mkError "Error" "Failed to fetch signatures")
  /\ (forall e,
        result_of (getTransactions_trimming P walletAddress w) = Throw e ->
        PublicKey_new P walletAddress = Throw e
        \/ e = mkError "Error" "Failed to fetch signatures").
Proof.
  destruct (PublicKey_new P walletAddress) as [pk|e0] eqn:Hpk.
  - rewrite (getTransactions_valid P walletAddress pk w Hpk).
    rewrite (getTransactions_trimming_valid P walletAddress pk w Hpk).
    assert (Hv : isValidSolanaPublicKey P walletAddress = true)
      by (unfold isValidSolanaPublicKey; rewrite Hpk; reflexivity).
    rewrite Hv.
    destruct (getSignaturesForAddress P pk w) as [[sigs|e1] w1] eqn:L.
    + rewrite !result_of_after.
      destruct (forSignatures_normal P (normalize P walletAddress) sigs w1)
        as (o & v & t & E & _).
      destruct (forSignatures_normal P trim sigs w1)
        as (o' & v' & t' & E' & _).
      rewrite E, E'. unfold result_of. cbn [fst].
      split; [|split; intros e He; discriminate].
      split.
      * intros [e He]. discriminate.
      * intros [Hf|(pk' & e' & w' & [= <-] & L')]; [discriminate|].
        rewrite L in L'. discriminate.
    + unfold result_of. cbn [fst].
      split; [|split; intros e [= <-]; auto].
      split; [|eauto].
      intros _. right. exists pk, e1, w1. auto.
  - assert (Hv : isValidSolanaPublicKey P walletAddress = false)
      by (unfold isValidSolanaPublicKey; rewrite Hpk; reflexivity).
    unfold getTransactions, getTransactions_trimming, bind, lift.
    rewrite Hv, Hpk. unfold result_of. cbn.
    split; [|split; intros e [= <-]; auto].
    split; [auto | eauto].
Qed.

Section OutputRecords.

Context (P : Platform).

Lemma contributions_Forall {R : Type}
  (build : RawTransaction -> SignatureInfo -> Completion R)
  (Q : R -> Prop)
  (HQ : forall tx s r, build tx s = Normal r -> Q r)
  (sigs : list SignatureInfo) :
  forall w : World P, Forall Q (contributions P build sigs w).
Proof.
  induction sigs as [|s rest IH]; intros w.
  - constructor.
  - rewrite contributions_cons.
    destruct (fetchTransactionWithBackoff P (signature s) 1 w)
      as [[[[tx|]|e] w1] tr]; try apply IH.
    destruct (build tx s) as [r|e] eqn:B; [|apply IH].
    constructor; [apply (HQ tx s r B) | apply IH].
Qed.

Lemma Forall_firstn_of {A} (Q : A -> Prop) (n : nat) (l : list A) :
  Forall Q l -> Forall Q (firstn n l).
Proof.
  intros H. revert n. induction H as [|x l Hx H IH]; intros [|n]; simpl;
    constructor; auto.
Qed.

Lemma normalize_fixed_fields (walletAddress : string) (tx : RawTransaction)
  (s : SignatureInfo) (r : SimplifiedTransaction) :
  normalize P walletAddress tx s = Normal r -> fixed_fields walletAddress r.
Proof.
  intros H.
  destruct (normalize_inversion P walletAddress tx s r H)
    as (m & pre & post & ts & _ & _ & _ & _ & ->).
  repeat split.
Qed.

(** The trimming builder keeps every transaction the normalizer keeps. *)
Lemma contributions_trim_longer (walletAddress : string)
  (sigs : list SignatureInfo) :
  forall w : World P,
    (List.length (contributions P (normalize P walletAddress) sigs w)
     <= List.length (contributions P trim sigs w))%nat.
Proof.
  induction sigs as [|s rest IH]; intros w.
  - simpl. lia.
  - rewrite !contributions_cons.
    destruct (fetchTransactionWithBackoff P (signature s) 1 w)
      as [[[[tx|]|e] w1] tr]; try apply IH.
    destruct (trim tx s) as [t|e] eqn:T; [|discriminate T].
    destruct (normalize P walletAddress tx s) as [r|e];
      cbn [List.length]; specialize (IH w1); lia.
Qed.

End OutputRecords.

(** X12.  Every record [getTransactions] returns has the constant fields of
    the record: network "Solana", the wallet address that was asked for,
    and the token fields network "Solana", name "solana", symbol "sol" and
    display decimals 2. *)
Theorem output_records_have_fixed_fields
  (P : Platform) (walletAddress : string) (w : World P)
  (out : list SimplifiedTransaction)
  (H : result_of (getTransactions P walletAddress w) = Normal out) :
  Forall (fixed_fields walletAddress) out.
Proof.
  destruct (PublicKey_new P walletAddress) as [pk|e0] eqn:Hpk.
  - rewrite (getTransactions_valid P walletAddress pk w Hpk) in H.
    destruct (getSignaturesForAddress P pk w) as [[sigs|e1] w1];
      [|discriminate].
    rewrite result_of_after in H.
    destruct (forSignatures_normal P (normalize P walletAddress) sigs w1)
      as (o & v & t & E & _ & Ho).
    rewrite E in H. injection H as <-. subst o.
    apply Forall_firstn_of, contributions_Forall.
    intros tx s r. apply normalize_fixed_fields.
  - unfold getTransactions, isValidSolanaPublicKey in H. rewrite Hpk in H.
    discriminate.
Qed.

Lemma output_records_have_fixed_fields_witness :
  exists out,
    result_of (getTransactions Examples.mixed Examples.wallet 0%nat)
    = Normal out
    /\ List.length out = 3%nat
    /\ Forall (fixed_fields Examples.wallet) out.
Proof.
  destruct (result_of (getTransactions Examples.mixed Examples.wallet 0%nat))
    as [out|e] eqn:Hr; [|discriminate].
  exists out. split; [reflexivity|]. split.
  - vm_compute in Hr. injection Hr as <-. reflexivity.
  - apply (output_records_have_fixed_fields Examples.mixed Examples.wallet
             0%nat out Hr).
Defined.

(** X13.  On the same node and listing the normalizing revision never
    returns more records than the trimming one: it drops the transactions
    its normalizer rejects and keeps no other. *)
Theorem normalizing_returns_no_more_than_trimming
  (P : Platform) (walletAddress : string) (pk : PublicKey P)
  (sigs : list SignatureInfo) (w w1 : World P)
  (Hpk : PublicKey_new P walletAddress = Normal pk)
  (L : getSignaturesForAddress P pk w = (Normal sigs, w1)) :
  exists out out',
    result_of (getTransactions P walletAddress w) = Normal out
    /\ result_of (getTransactions_trimming P walletAddress w) = Normal out'
    /\ (List.length out <= List.length out')%nat.
Proof.
  rewrite (getTransactions_valid P walletAddress pk w Hpk).
  rewrite (getTransactions_trimming_valid P walletAddress pk w Hpk).
  rewrite L, !result_of_after.
  destruct (forSignatures_normal P (normalize P walletAddress) sigs w1)
    as (o & v & t & E & _ & ->).
  destruct (forSignatures_normal P trim sigs w1)
    as (o' & v' & t' & E' & _ & ->).
  rewrite E, E'. eexists _, _. split; [reflexivity|]. split; [reflexivity|].
  unfold specified_output. rewrite !length_firstn.
  pose proof (contributions_trim_longer P walletAddress sigs w1). lia.
Qed.

Lemma normalizing_returns_no_more_than_trimming_witness :
  (PublicKey_new Examples.mixed Examples.wallet = Normal Examples.wallet
   /\ getSignaturesForAddress Examples.mixed Examples.wallet 0%nat
      = (Normal Examples.mixedSignatures, 1%nat))
  /\ exists out out',
       result_of (getTransactions Examples.mixed Examples.wallet 0%nat)
       = Normal out
       /\ result_of (getTransactions_trimming Examples.mixed Examples.wallet 0%nat)
          = Normal out'
       /\ (List.length out <= List.length out')%nat.
Proof.
  split; [split; reflexivity|].
  apply (normalizing_returns_no_more_than_trimming Examples.mixed
           Examples.wallet Examples.wallet Examples.mixedSignatures
           0%nat 1%nat); reflexivity.
Defined.

(** ** The check of the endpoint *)

(** X14.  The service starts only with an endpoint that is set and begins
    with "http:" or "https:" (the match is case-sensitive and the empty
    string is refused); it then uses that very string.  In every other
    case start-up throws the endpoint error. *)
Theorem endpoint_accepted_iff (END_POINT : option string) :
  (forall url,
      checkEndpoint END_POINT = Normal url
      <-> END_POINT = Some url
          /\ ((exists rest, url = ("http:" ++ rest)%string)
              \/ (exists rest, url = ("https:" ++ rest)%string)))
  /\ ((forall url, checkEndpoint END_POINT <> Normal url)
      -> checkEndpoint END_POINT = Throw ENDPOINT_ERROR).
Proof.
  split.
  - intros url. unfold checkEndpoint, startsWith.
    destruct END_POINT as [u|].
    + rewrite <- !prefix_append.
      destruct u as [|c u].
      * simpl. split; [discriminate|].
        intros [[= <-] [H|H]]; discriminate.
      * cbn [orb].
        destruct (String.prefix "http:" (String c u)) eqn:E1;
          destruct (String.prefix "https:" (String c u)) eqn:E2;
          cbn [negb andb];
          (split; [intros [= <-]; auto | intros [[= <-] [H|H]]; congruence]).
    + split; [discriminate | intros [H _]; discriminate].
  - intros H. unfold checkEndpoint in *.
    destruct END_POINT as [u|]; [|reflexivity].
    destruct (_ || _); [reflexivity|]. now contradiction (H u).
Qed.

(** ** The handler of the route *)

Lemma length_append (a b : string) :
  String.length (a ++ b) = (String.length a + String.length b)%nat.
Proof. induction a as [|c a IH]; simpl; [reflexivity | now rewrite IH]. Qed.

Lemma append_cancel_r (c : string) :
  forall a b : string, (a ++ c = b ++ c)%string -> a = b.
Proof.
  induction a as [|x a IH]; intros [|y b] H; simpl in H.
  - reflexivity.
  - apply (f_equal String.length) in H. simpl in H.
    rewrite length_append in H. lia.
  - apply (f_equal String.length) in H. simpl in H.
    rewrite length_append in H. lia.
  - injection H as -> H. f_equal. apply IH, H.
Qed.

Lemma append_cancel_l (c : string) :
  forall a b : string, (c ++ a = c ++ b)%string -> a = b.
Proof.
  induction c as [|x c IH]; intros a b H; simpl in H; [exact H|].
  injection H as H. apply IH, H.
Qed.

(** X15.  Two wallet addresses never share an output file: the path of the
    file determines the address. *)
Theorem file_path_determines_address (a b : string)
  (H : filePathOf a = filePathOf b) : a = b.
Proof.
  unfold filePathOf in H.
  apply append_cancel_l in H. apply append_cancel_r in H. exact H.
Qed.

Lemma file_path_determines_address_witness :
  filePathOf Examples.wallet = filePathOf Examples.wallet
  /\ Examples.wallet = Examples.wallet.
Proof.
  split; [reflexivity|].
  apply (file_path_determines_address Examples.wallet Examples.wallet).
  reflexivity.
Defined.

Lemma responses_app {PK} (a b : list (HandlerEvent PK)) :
  responses (a ++ b) = responses a ++ responses b.
Proof.
  induction a as [|[] a IH]; simpl; rewrite ?IH; reflexivity.
Qed.

Lemma writes_app {PK} (a b : list (HandlerEvent PK)) :
  writes (a ++ b) = writes a ++ writes b.
Proof.
  induction a as [|[] a IH]; simpl; rewrite ?IH; reflexivity.
Qed.

Lemma nodeEvents_app {PK} (a b : list (HandlerEvent PK)) :
  nodeEvents (a ++ b) = nodeEvents a ++ nodeEvents b.
Proof.
  induction a as [|[] a IH]; simpl; rewrite ?IH; reflexivity.
Qed.

Lemma handler_Node {PK} (tr : list (Event PK)) :
  responses (map Node tr) = []
  /\ writes (map Node tr) = []
  /\ nodeEvents (map Node tr) = tr.
Proof.
  induction tr as [|e tr (IH1 & IH2 & IH3)]; simpl; [auto|].
  rewrite IH3. auto.
Qed.

Section HandlerFacts.

Context (P : Platform) (F : FileSystem) {R : Type}.
Variable getTransactionsOf : string -> IO (World P) (PublicKey P) (list R).
Variable JSON_stringify : list R -> string.

(** The three ways the handler runs. *)
Lemma handler_cases (a : string) (w : World P) (fs : Files F) :
  (exists out w1 tr u fs1,
      getTransactionsOf a w = (Normal out, w1, tr)
      /\ fs_writeFile F (filePathOf a) (JSON_stringify out) fs
         = (Normal u, fs1)
      /\ handler P F getTransactionsOf JSON_stringify a w fs
         = (w1, fs1,
            map Node tr
              ++ [Fs_writeFile (filePathOf a) (JSON_stringify out);
                  Respond (Res_json SAVED (filePathOf a))]))
  \/ (exists out w1 tr e fs1,
         getTransactionsOf a w = (Normal out, w1, tr)
         /\ fs_writeFile F (filePathOf a) (JSON_stringify out) fs
            = (Throw e, fs1)
         /\ handler P F getTransactionsOf JSON_stringify a w fs
            = (w1, fs1,
               map Node tr
                 ++ [Fs_writeFile (filePathOf a) (JSON_stringify out);
                     Console_error_of e; Respond FAILED]))
  \/ (exists e w1 tr,
         getTransactionsOf a w = (Throw e, w1, tr)
         /\ handler P F getTransactionsOf JSON_stringify a w fs
            = (w1, fs, map Node tr ++ [Console_error_of e; Respond FAILED])).
Proof.
  unfold handler.
  destruct (getTransactionsOf a w) as [[[out|e] w1] tr].
  - destruct (fs_writeFile F (filePathOf a) (JSON_stringify out) fs)
      as [[u|e] fs1] eqn:Wr.
    + left. exists out, w1, tr, u, fs1. auto.
    + right. left. exists out, w1, tr, e, fs1. auto.
  - right. right. exists e, w1, tr. auto.
Qed.

End HandlerFacts.

(** X16.  The handler answers every request exactly once, and the response
    is its last event: either the 200 JSON body with the fixed message and
    the path of the file, sent exactly when [getTransactions] returned and
    the write succeeded, or status 500 with the fixed text. *)
Theorem handler_responds_once
  (P : Platform) (F : FileSystem) (R : Type)
  (getTransactionsOf : string -> IO (World P) (PublicKey P) (list R))
  (JSON_stringify : list R -> string)
  (a : string) (w : World P) (fs : Files F) :
  exists before r,
    snd (handler P F getTransactionsOf JSON_stringify a w fs)
    = before ++ [Respond r]
    /\ responses (snd (handler P F getTransactionsOf JSON_stringify a w fs))
       = [r]
    /\ (r = Res_json SAVED (filePathOf a) \/ r = FAILED)
    /\ (r = Res_json SAVED (filePathOf a)
        <-> exists out u fs1,
              result_of (getTransactionsOf a w) = Normal out
              /\ fs_writeFile F (filePathOf a) (JSON_stringify out) fs
                 = (Normal u, fs1)).
Proof.
  destruct (handler_cases P F getTransactionsOf JSON_stringify a w fs)
    as [(out & w1 & tr & u & fs1 & G & Wr & H)
       |[(out & w1 & tr & e & fs1 & G & Wr & H)
        |(e & w1 & tr & G & H)]];
    rewrite H, G; cbn [snd result_of fst].
  - exists (map Node tr ++ [Fs_writeFile (filePathOf a) (JSON_stringify out)]),
      (Res_json SAVED (filePathOf a)).
    split; [rewrite <- app_assoc; reflexivity|].
    split; [rewrite responses_app, (proj1 (handler_Node tr)); reflexivity|].
    split; [auto|]. split; [|auto].
    intros _. exists out, u, fs1. auto.
  - exists (map Node tr ++ [Fs_writeFile (filePathOf a) (JSON_stringify out);
                            Console_error_of e]), FAILED.
    split; [rewrite <- app_assoc; reflexivity|].
    split; [rewrite responses_app, (proj1 (handler_Node tr)); reflexivity|].
    split; [auto|]. split; [discriminate|].
    intros (out' & u & fs' & [= <-] & Wr'). rewrite Wr in Wr'. discriminate.
  - exists (map Node tr ++ [Console_error_of e]), FAILED.
    split; [rewrite <- app_assoc; reflexivity|].
    split; [rewrite responses_app, (proj1 (handler_Node tr)); reflexivity|].
    split; [auto|]. split; [discriminate|].
    intros (out' & u & fs' & Hr & _). discriminate.
Qed.

(** X17.  The handler sends no request of its own: its node events are
    those of [getTransactions].  It writes at most once: when
    [getTransactions] throws it writes nothing and leaves the files as
    they were; when [getTransactions] returns it writes the serialized
    array, once, to the file named after the address, before it answers. *)
Theorem handler_writes_once
  (P : Platform) (F : FileSystem) (R : Type)
  (getTransactionsOf : string -> IO (World P) (PublicKey P) (list R))
  (JSON_stringify : list R -> string)
  (a : string) (w : World P) (fs : Files F) :
  nodeEvents (snd (handler P F getTransactionsOf JSON_stringify a w fs))
  = trace_of (getTransactionsOf a w)
  /\ fst (fst (handler P F getTransactionsOf JSON_stringify a w fs))
     = world_of (getTransactionsOf a w)
  /\ (forall e,
        result_of (getTransactionsOf a w) = Throw e ->
        writes (snd (handler P F getTransactionsOf JSON_stringify a w fs)) = []
        /\ snd (fst (handler P F getTransactionsOf JSON_stringify a w fs)) = fs)
  /\ (forall out,
        result_of (getTransactionsOf a w) = Normal out ->
        writes (snd (handler P F getTransactionsOf JSON_stringify a w fs))
        = [(filePathOf a, JSON_stringify out)]
        /\ snd (fst (handler P F getTransactionsOf JSON_stringify a w fs))
           = snd (fs_writeFile F (filePathOf a) (JSON_stringify out) fs)).
Proof.
  destruct (handler_cases P F getTransactionsOf JSON_stringify a w fs)
    as [(out & w1 & tr & u & fs1 & G & Wr & H)
       |[(out & w1 & tr & e & fs1 & G & Wr & H)
        |(e & w1 & tr & G & H)]];
    rewrite H, G; cbn [snd fst result_of trace_of world_of];
    destruct (handler_Node tr) as (_ & HW & HN);
    rewrite nodeEvents_app, writes_app, HW, HN; cbn [nodeEvents writes app];
    rewrite app_nil_r.
  - split; [reflexivity|]. split; [reflexivity|].
    split; [intros e' He; discriminate|].
    intros out' [= <-]. rewrite Wr. split; reflexivity.
  - split; [reflexivity|]. split; [reflexivity|].
    split; [intros e' He; discriminate|].
    intros out' [= <-]. rewrite Wr. split; reflexivity.
  - split; [reflexivity|]. split; [reflexivity|].
    split; [intros e' He; split; reflexivity|].
    intros out' He. discriminate.
Qed.

(** X18.  A request for an address that is not a public key is answered
    with status 500 after the invalid-address error is logged, and nothing
    else happens: no request to the node, no write, node and files as
    before. *)
Theorem route_rejects_invalid_address
  (P : Platform) (F : FileSystem)
  (JSON_stringify : list SimplifiedTransaction -> string)
  (a : string) (w : World P) (fs : Files F)
  (H : isValidSolanaPublicKey P a = false) :
  transactionsRoute P F JSON_stringify a w fs
  = (w, fs,
     [Console_error_of (mkError "Error" "Invalid wallet address");
      Respond FAILED]).
Proof.
  unfold transactionsRoute, handler, getTransactions. rewrite H. reflexivity.
Qed.

Lemma route_rejects_invalid_address_witness :
  isValidSolanaPublicKey Examples.mixed "not-a-key" = false
  /\ transactionsRoute Examples.mixed ServiceExamples.disk
       ServiceExamples.hashes "not-a-key" 0%nat []
     = (0%nat, [],
        [Console_error_of (mkError "Error" "Invalid wallet address");
         Respond FAILED]).
Proof.
  split; [reflexivity|].
  apply (route_rejects_invalid_address Examples.mixed ServiceExamples.disk
           ServiceExamples.hashes "not-a-key" 0%nat []).
  reflexivity.
Defined.

(** X19.  When the route answers 200, the file named after the address was
    written, once, with the serialization of the array [getTransactions]
    returned, which holds at most one hundred records; and the address is
    a valid public key whose listing succeeded. *)
Theorem route_success_means_file_written
  (P : Platform) (F : FileSystem)
  (JSON_stringify : list SimplifiedTransaction -> string)
  (a : string) (w : World P) (fs : Files F)
  (H : responses (snd (transactionsRoute P F JSON_stringify a w fs))
       = [Res_json SAVED (filePathOf a)]) :
  exists out,
    result_of (getTransactions P a w) = Normal out
    /\ (List.length out <= 100)%nat
    /\ writes (snd (transactionsRoute P F JSON_stringify a w fs))
       = [(filePathOf a, JSON_stringify out)]
    /\ isValidSolanaPublicKey P a = true
    /\ exists pk sigs w1,
         PublicKey_new P a = Normal pk
         /\ getSignaturesForAddress P pk w = (Normal sigs, w1).
Proof.
  unfold transactionsRoute in *.
  destruct (handler_cases P F (getTransactions P) JSON_stringify a w fs)
    as [(out & w1 & tr & u & fs1 & G & Wr & E)
       |[(out & w1 & tr & e & fs1 & G & Wr & E)
        |(e & w1 & tr & G & E)]];
    rewrite E in *; cbn [snd] in *;
    destruct (handler_Node tr) as (HR & HW & _);
    rewrite responses_app, HR in H; cbn [responses app] in H;
    try discriminate.
  exists out. rewrite G, writes_app, HW. cbn [result_of fst writes app].
  split; [reflexivity|].
  destruct (PublicKey_new P a) as [pk|e0] eqn:Hpk.
  - rewrite (getTransactions_valid P a pk w Hpk) in G.
    destruct (getSignaturesForAddress P pk w) as [[sigs|e1] w2] eqn:L;
      [|discriminate].
    destruct (forSignatures_normal P (normalize P a) sigs w2)
      as (o & v & t & E' & Hlen & _).
    rewrite E' in G. injection G as <- _ _.
    split; [exact Hlen|]. split; [reflexivity|].
    split; [unfold isValidSolanaPublicKey; rewrite Hpk; reflexivity|].
    exists pk, sigs, w2. auto.
  - unfold getTransactions, isValidSolanaPublicKey in G. rewrite Hpk in G.
    discriminate.
Qed.

Lemma route_success_means_file_written_witness :
  responses (snd (transactionsRoute Examples.mixed ServiceExamples.disk
                    ServiceExamples.hashes Examples.wallet 0%nat []))
  = [Res_json SAVED (filePathOf Examples.wallet)]
  /\ exists out,
       result_of (getTransactions Examples.mixed Examples.wallet 0%nat)
       = Normal out
       /\ (List.length out <= 100)%nat
       /\ writes (snd (transactionsRoute Examples.mixed ServiceExamples.disk
                         ServiceExamples.hashes Examples.wallet 0%nat []))
          = [(filePathOf Examples.wallet, ServiceExamples.hashes out)].
Proof.
  assert (H : responses
                (snd (transactionsRoute Examples.mixed ServiceExamples.disk
                        ServiceExamples.hashes Examples.wallet 0%nat []))
              = [Res_json SAVED (filePathOf Examples.wallet)])
    by (vm_compute; reflexivity).
  split; [exact H|].
  destruct (route_success_means_file_written Examples.mixed
              ServiceExamples.disk ServiceExamples.hashes Examples.wallet
              0%nat [] H) as (out & Hr & Hlen & Hw & _).
  exists out. auto.
Defined.

Example route_on_mixed_node :
  let '(w, fs, tr) :=
    transactionsRoute Examples.mixed ServiceExamples.disk
      ServiceExamples.hashes Examples.wallet 0%nat [] in
  fs = [("./transactions_vines1vzrYbzLMRdu58ou5XTby4qAqVRLmqo36NKPTg.json",
         "a,b,c")]%string
  /\ responses tr
     = [Res_json SAVED
          "./transactions_vines1vzrYbzLMRdu58ou5XTby4qAqVRLmqo36NKPTg.json"].
Proof. vm_compute. split; reflexivity. Qed.

Example route_on_read_only_files :
  responses
    (snd (transactionsRoute Examples.mixed ServiceExamples.readOnly
            ServiceExamples.hashes Examples.wallet 0%nat tt))
  = [FAILED].
Proof. vm_compute. reflexivity. Qed.

Example normalizer_needs_post_balances :
  normalize Examples.mixed Examples.wallet ServiceExamples.halfTransaction
    (Examples.sigOf "half")
  = Throw (typeError "0").
Proof. vm_compute. reflexivity. Qed.

Example endpoint_examples :
  checkEndpoint (Some "https://example.solana-mainnet.quiknode.pro/abc/"%string)
  = Normal "https://example.solana-mainnet.quiknode.pro/abc/"%string
  /\ checkEndpoint (Some "HTTP://example.org"%string) = Throw ENDPOINT_ERROR
  /\ checkEndpoint (Some "wss://example.org"%string) = Throw ENDPOINT_ERROR
  /\ checkEndpoint (Some ""%string) = Throw ENDPOINT_ERROR
  /\ checkEndpoint None = Throw ENDPOINT_ERROR.
Proof. vm_compute. repeat split. Qed.
